(** * Product-trace service (app.py): a shallow embedding and its properties

    The Flask application registers manufactured products under a generated
    trace identifier, renders a QR image for each one and logs every public
    lookup.  The embedding follows app.py function by function:

    - Python [str] values are [string]s of ASCII characters, Python [int]s
      are [Z] (or [N] where the source cannot produce a negative number);
    - the SQLite database behind SQLAlchemy is a pair of row lists, with the
      column constraints declared on the two models checked at commit time;
    - the clock, the random source and the outcome of every write to disk
      are read from an environment, indexed by counters kept in the world,
      so that a handler is a function from worlds to worlds;
    - an exception is the left injection of the handler monad; the world
      that was reached when it was raised is kept, as a committed
      transaction is in the source. *)

From Stdlib Require Import ZArith NArith Arith Lia List String Ascii Bool Permutation.
Import ListNotations.
Local Open Scope string_scope.

(** ** Python text primitives *)

Module Py.

(** Truncating slice [s[:k]]. *)
Fixpoint take (k : nat) (s : string) : string :=
  match k, s with
  | S k', String c s' => String c (take k' s')
  | _, _ => EmptyString
  end.

(** The slice [s[k:]]. *)
Fixpoint drop (k : nat) (s : string) : string :=
  match k, s with
  | S k', String _ s' => drop k' s'
  | _, _ => s
  end.

(** [s.startswith(c)] and [s.endswith(c)] for a one-character [c]. *)
Definition startswith (s : string) (c : ascii) : bool :=
  match s with
  | String c' _ => Ascii.eqb c' c
  | EmptyString => false
  end.

Fixpoint endswith (s : string) (c : ascii) : bool :=
  match s with
  | EmptyString => false
  | String c' EmptyString => Ascii.eqb c' c
  | String _ s' => endswith s' c
  end.

(** [str.upper] on ASCII text: the letters a-z move to A-Z. *)
Definition upper_char (c : ascii) : ascii :=
  let n := N_of_ascii c in
  if ((97 <=? n) && (n <=? 122))%N then ascii_of_N (n - 32) else c.

Fixpoint upper (s : string) : string :=
  match s with
  | EmptyString => EmptyString
  | String c s' => String (upper_char c) (upper s')
  end.

(** Positional notation, most significant digit first.  The recursion
    stops at the first quotient that is zero; the fuel only bounds it. *)
Fixpoint to_digits (base : N) (fuel : nat) (n : N) (acc : list N) : list N :=
  match fuel with
  | O => acc
  | S fuel' =>
      let acc' := (n mod base)%N :: acc in
      if (n / base =? 0)%N then acc' else to_digits base fuel' (n / base)%N acc'
  end.

Definition digits (base n : N) : list N :=
  to_digits base (S (N.to_nat (N.size n))) n [].

(** The characters of "0123456789abcdef". *)
Definition digit_char (d : N) : ascii :=
  if (d <? 10)%N then ascii_of_N (48 + d) else ascii_of_N (87 + d).

Fixpoint string_of_digits (ds : list N) : string :=
  match ds with
  | [] => EmptyString
  | d :: ds' => String (digit_char d) (string_of_digits ds')
  end.

Fixpoint zeros (k : nat) : string :=
  match k with
  | O => EmptyString
  | S k' => String "0" (zeros k')
  end.

(** Left padding with the character 0 up to [width], as the [0] flag of a
    conversion does for a non-negative number. *)
Definition zfill (width : nat) (s : string) : string :=
  zeros (width - String.length s) ++ s.

(** ["%0<width>d" % n] and ["%0<width>x" % n] for [n >= 0]. *)
Definition format_d (width : nat) (n : N) : string :=
  zfill width (string_of_digits (digits 10 n)).

Definition format_x (width : nat) (n : N) : string :=
  zfill width (string_of_digits (digits 16 n)).

(** Character classes used by the identifier pattern. *)
Definition is_digit (c : ascii) : bool :=
  let n := N_of_ascii c in ((48 <=? n) && (n <=? 57))%N.

Definition is_upper_letter (c : ascii) : bool :=
  let n := N_of_ascii c in ((65 <=? n) && (n <=? 90))%N.

Definition is_upper_alnum (c : ascii) : bool :=
  is_digit c || is_upper_letter c.

Definition is_upper_hex (c : ascii) : bool :=
  let n := N_of_ascii c in
  is_digit c || ((65 <=? n) && (n <=? 70))%N.

Fixpoint all_chars (p : ascii -> bool) (s : string) : bool :=
  match s with
  | EmptyString => true
  | String c s' => p c && all_chars p s'
  end.

(** The number a list of digits denotes, continuing from [start]. *)
Definition value (base : N) (ds : list N) (start : N) : N :=
  fold_left (fun acc d => acc * base + d)%N ds start.

(** The number a string of decimal digits denotes. *)
Fixpoint decimal_value (s : string) (acc : N) : N :=
  match s with
  | EmptyString => acc
  | String c s' => decimal_value s' (10 * acc + (N_of_ascii c - 48))%N
  end.

End Py.

(** ** The clock and the random source *)

(** The calendar fields of a [datetime] that [strftime("%Y%m%d")] reads. *)
Record date := mkDate { year : N; month : N; day : N }.

(** A date the clock can return: a year of four digits ([datetime] stops at
    9999, and below 1000 the width of [%Y] depends on the C library), a
    month and a day of the month. *)
Definition valid_date (d : date) : Prop :=
  (1000 <= year d <= 9999 /\ 1 <= month d <= 12 /\ 1 <= day d <= 31)%N.

(** [d.strftime("%Y%m%d")]: the year on four digits, month and day on two,
    each padded with zeros. *)
Definition strftime_Ymd (d : date) : string :=
  Py.format_d 4 (year d) ++ Py.format_d 2 (month d) ++ Py.format_d 2 (day d).

(** [uuid.uuid4()]: sixteen random bytes read as a 128-bit integer, with the
    variant and version bits forced; [.hex] prints it on 32 lowercase
    hexadecimal digits. *)
Definition uuid4_int (random16 : N) : N :=
  let i := (random16 mod 2 ^ 128)%N in
  let i := N.ldiff i (N.shiftl 0xc000 48) in
  let i := N.lor i (N.shiftl 0x8000 48) in
  let i := N.ldiff i (N.shiftl 0xf000 64) in
  N.lor i (N.shiftl 4 76).

Definition uuid_hex (u : N) : string := Py.format_x 32 u.

(** Lines 64-66 of generate_trace_id, as a function of what the clock and
    the random source returned. *)
Definition trace_id_of (today : date) (random16 : N) : string :=
  let date_str := strftime_Ymd today in
  let rand := Py.upper (Py.take 6 (uuid_hex (uuid4_int random16))) in
  "P" ++ date_str ++ rand.

(** The eight characters after the first, and what follows them. *)
Definition date_part (tid : string) : string := Py.take 8 (Py.drop 1 tid).

Definition random_part (tid : string) : string := Py.drop 9 tid.

(** The shape of an identifier: the letter P, eight decimal digits, six
    characters that are digits or capital letters, and nothing else. *)
Definition matches_pattern (tid : string) : bool :=
  (Py.take 1 tid =? "P")
  && (String.length (date_part tid) =? 8)%nat
  && Py.all_chars Py.is_digit (date_part tid)
  && (String.length (random_part tid) =? 6)%nat
  && Py.all_chars Py.is_upper_alnum (random_part tid).

(** ** Values of a form field and the integer conversion *)

(** What [request.form.get(k) or 0] can evaluate to. *)
Inductive pyval :=
| PyNone
| PyStr (s : string)
| PyInt (z : Z).

(** The exceptions the handlers can let escape.  [NotFound] is the
    exception [abort(404)] raises. *)
Inductive exn :=
| ValueError
| TypeError
| IntegrityError
| OperationalError
| OverflowError
| OSError
| NotFound.

(** Truth value of an operand of [or]. *)
Definition truthy (v : pyval) : bool :=
  match v with
  | PyNone => false
  | PyStr s => negb (s =? EmptyString)
  | PyInt z => negb (z =? 0)%Z
  end.

Definition py_or (a b : pyval) : pyval := if truthy a then a else b.

(** [request.form.get(key)]: the first value sent under [key], [None] when
    there is none. *)
Fixpoint form_get (form : list (string * string)) (key : string) : option string :=
  match form with
  | [] => None
  | (k, v) :: rest => if k =? key then Some v else form_get rest key
  end.

Definition pyval_of (o : option string) : pyval :=
  match o with
  | Some s => PyStr s
  | None => PyNone
  end.

(** White space that [int] skips at both ends of its argument. *)
Definition is_space (c : ascii) : bool :=
  let n := N_of_ascii c in
  (((9 <=? n) && (n <=? 13)) || ((28 <=? n) && (n <=? 32)))%N.

Fixpoint lstrip (s : list ascii) : list ascii :=
  match s with
  | c :: s' => if is_space c then lstrip s' else s
  | [] => []
  end.

Definition strip (s : list ascii) : list ascii :=
  rev (lstrip (rev (lstrip s))).

(** Decimal digits, where a single underscore may separate two digits. *)
Fixpoint parse_digits (s : list ascii) (acc : Z) (after_digit : bool) : option Z :=
  match s with
  | [] => if after_digit then Some acc else None
  | c :: s' =>
      if Py.is_digit c then
        parse_digits s' (10 * acc + Z.of_N (N_of_ascii c - 48)) true
      else if Ascii.eqb c "_" then
        if after_digit then parse_digits s' acc false else None
      else None
  end%Z.

(** [int(s)] for a [str] of ASCII characters: surrounding white space, an
    optional sign, decimal digits.  Characters outside ASCII are not
    digits here, and the limit some interpreters put on the number of
    digits is left out. *)
Definition int_of_str (s : string) : option Z :=
  match strip (list_ascii_of_string s) with
  | "-"%char :: ds => option_map Z.opp (parse_digits ds 0 false)
  | "+"%char :: ds => parse_digits ds 0 false
  | ds => parse_digits ds 0 false
  end.

(** [int(v)]. *)
Definition py_int (v : pyval) : exn + Z :=
  match v with
  | PyInt z => inr z
  | PyStr s =>
      match int_of_str s with
      | Some z => inr z
      | None => inl ValueError
      end
  | PyNone => inl TypeError
  end.

(** ** Paths *)

(** [os.path.join(a, *p)] of posixpath. *)
Definition join_step (path b : string) : string :=
  if Py.startswith b "/" then b
  else if (path =? EmptyString) || Py.endswith path "/" then path ++ b
  else path ++ "/" ++ b.

Definition os_path_join (a : string) (p : list string) : string :=
  fold_left join_step p a.

(** ** Data model *)

(** A row of the product table, and also the Python object before it is
    flushed: [None] is an attribute that is not set, NULL in the table. *)
Module ProductTrace.
Record t := mk {
  id : option Z;
  trace_id : string;
  product_name : option string;
  model : option string;
  material : option string;
  material_origin : option string;
  material_batch : option string;
  standard_code : option string;
  function_desc : option string;
  key_params : option string;
  prod_batch : option string;
  prod_date : option string;
  prod_line : option string;
  qc_result : option string;
  qc_person : option string;
  warranty_months : option Z;
  qr_image_path : option string;
  created_at : option Z;
  updated_at : option Z
}.

(** What the INSERT fills in: the key and the two column defaults. *)
Definition flushed (p : t) (new_id created updated : Z) : t :=
  mk (Some new_id) (trace_id p) (product_name p) (model p) (material p)
     (material_origin p) (material_batch p) (standard_code p)
     (function_desc p) (key_params p) (prod_batch p) (prod_date p)
     (prod_line p) (qc_result p) (qc_person p) (warranty_months p)
     (qr_image_path p)
     (match created_at p with Some c => Some c | None => Some created end)
     (match updated_at p with Some u => Some u | None => Some updated end).

(** What the UPDATE of line 132-133 writes: the path, and [updated_at]
    through its [onupdate]. *)
Definition with_qr_image_path (p : t) (path : string) (updated : Z) : t :=
  mk (id p) (trace_id p) (product_name p) (model p) (material p)
     (material_origin p) (material_batch p) (standard_code p)
     (function_desc p) (key_params p) (prod_batch p) (prod_date p)
     (prod_line p) (qc_result p) (qc_person p) (warranty_months p)
     (Some path) (created_at p) (Some updated).
End ProductTrace.

Module ScanLog.
Record t := mk {
  id : option Z;
  trace_id : string;
  ip_address : option string;
  user_agent : option string;
  scanned_at : option Z
}.

Definition flushed (l : t) (new_id scanned : Z) : t :=
  mk (Some new_id) (trace_id l) (ip_address l) (user_agent l)
     (match scanned_at l with Some s => Some s | None => Some scanned end).
End ScanLog.

Record database := mkDb {
  products : list ProductTrace.t;
  scan_logs : list ScanLog.t
}.

(** The key SQLite gives a new row of an INTEGER PRIMARY KEY table: one
    more than the largest key in use, 1 in an empty table. *)
Definition next_id (ids : list (option Z)) : Z :=
  1 + fold_right (fun i m => match i with Some z => Z.max z m | None => m end) 0%Z ids.

(** [ProductTrace.query.filter_by(trace_id=tid).first()]. *)
Definition find_by_trace_id (db : database) (tid : string) : option ProductTrace.t :=
  find (fun p => ProductTrace.trace_id p =? tid) (products db).

Definition int64 (z : Z) : bool := ((- 2 ^ 63 <=? z) && (z <? 2 ^ 63))%Z.

(** What the driver accepts for an INTEGER column: NULL or a signed 64-bit
    number. *)
Definition fits_column (w : option Z) : bool :=
  match w with
  | Some z => int64 z
  | None => true
  end.

(** The INSERT of a product: an integer that fits the column, NOT NULL on
    [product_name], UNIQUE on [trace_id]. *)
Definition insert_product (p : ProductTrace.t) (created updated : Z) (db : database)
  : exn + (ProductTrace.t * database) :=
  if negb (fits_column (ProductTrace.warranty_months p)) then inl OverflowError
  else
    match ProductTrace.product_name p with
    | None => inl IntegrityError
    | Some _ =>
        match find_by_trace_id db (ProductTrace.trace_id p) with
        | Some _ => inl IntegrityError
        | None =>
            let row := ProductTrace.flushed p
                         (next_id (map ProductTrace.id (products db))) created updated in
            inr (row, mkDb (products db ++ [row]) (scan_logs db))
        end
    end.

(** The UPDATE of the row whose key is [pid]: every other row is left as
    it is. *)
Definition qr_update (pid : option Z) (path : string) (updated : Z)
                     (r : ProductTrace.t) : ProductTrace.t :=
  match ProductTrace.id r, pid with
  | Some i, Some j =>
      if (i =? j)%Z then ProductTrace.with_qr_image_path r path updated else r
  | _, _ => r
  end.

Definition update_qr_image_path (pid : option Z) (path : string) (updated : Z)
                                (db : database) : database :=
  mkDb (map (qr_update pid path updated) (products db)) (scan_logs db).

(** The INSERT of a scan log: no constraint can reject it. *)
Definition insert_scan_log (l : ScanLog.t) (scanned : Z) (db : database) : database :=
  mkDb (products db)
       (scan_logs db ++ [ScanLog.flushed l (next_id (map ScanLog.id (scan_logs db))) scanned]).

(** ** The world outside the handlers *)

(** What the handlers read from outside: the clock, in UTC and as a local
    calendar date, the random bytes, whether the database file accepts a
    transaction, whether the QR library can encode a text, and whether the
    disk accepts a write. *)
Record env := mkEnv {
  utcnow : nat -> Z;
  now : nat -> date;
  urandom16 : nat -> N;
  commit_ok : nat -> bool;
  qr_encodable : string -> bool;
  disk_ok : nat -> bool
}.

(** The database, the image files written so far (path and encoded URL),
    and how many readings of each source were taken. *)
Record world := mkWorld {
  db : database;
  files : list (string * string);
  clock_reads : nat;
  random_reads : nat;
  commits : nat;
  disk_ops : nat
}.

Definition initial_world : world := mkWorld (mkDb [] []) [] 0 0 0 0.

(** A handler: it may raise, and it leaves a world either way. *)
Definition M (A : Type) : Type := world -> (exn + A) * world.

Definition ret {A} (a : A) : M A := fun w => (inr a, w).

Definition raise {A} (e : exn) : M A := fun w => (inl e, w).

Definition bind {A B} (m : M A) (k : A -> M B) : M B :=
  fun w =>
    match m w with
    | (inr a, w') => k a w'
    | (inl e, w') => (inl e, w')
    end.

Definition lift {A} (r : exn + A) : M A := fun w => (r, w).

Declare Scope handler_scope.
Delimit Scope handler_scope with handler.
Notation "x <- m ;; k" := (bind m (fun x => k))
  (at level 61, m at next level, right associativity) : handler_scope.
Notation "m ;; k" := (bind m (fun _ => k))
  (at level 61, right associativity) : handler_scope.
Local Open Scope handler_scope.

Inductive http_method := GET | POST.

(** The part of a request a handler reads. *)
Record request := mkRequest {
  method : http_method;
  form : list (string * string);
  remote_addr : option string;
  user_agent_header : option string
}.

Inductive response :=
| Rendered (template : string) (context : list ProductTrace.t)
| Redirect (location : string).

Section Handlers.

Variable E : env.

(** *** Readings of the environment *)

Definition datetime_utcnow : M Z :=
  fun w => (inr (utcnow E (clock_reads w)),
            mkWorld (db w) (files w) (S (clock_reads w)) (random_reads w)
                    (commits w) (disk_ops w)).

Definition datetime_now : M date :=
  fun w => (inr (now E (clock_reads w)),
            mkWorld (db w) (files w) (S (clock_reads w)) (random_reads w)
                    (commits w) (disk_ops w)).

Definition os_urandom16 : M N :=
  fun w => (inr (urandom16 E (random_reads w)),
            mkWorld (db w) (files w) (clock_reads w) (S (random_reads w))
                    (commits w) (disk_ops w)).

(** *** db.session *)

(** The end of a transaction: the database file takes the new contents,
    or the commit raises and the contents stay as they were. *)
Definition transaction {A} (r : exn + (A * database)) : M A :=
  fun w =>
    let w' := mkWorld (db w) (files w) (clock_reads w) (random_reads w)
                      (S (commits w)) (disk_ops w) in
    match r with
    | inl e => (inl e, w')
    | inr (a, db') =>
        if commit_ok E (commits w)
        then (inr a, mkWorld db' (files w) (clock_reads w) (random_reads w)
                             (S (commits w)) (disk_ops w))
        else (inl OperationalError, w')
    end.

(** Lines 127-128: [db.session.add(product); db.session.commit()].  The
    two column defaults read the clock, then the row is inserted.  The
    result is the object as the session refreshed it. *)
Definition add_commit_product (product : ProductTrace.t) : M ProductTrace.t :=
  created <- datetime_utcnow ;;
  updated <- datetime_utcnow ;;
  fun w => transaction (insert_product product created updated (db w)) w.

(** Lines 132-133: [product.qr_image_path = qr_path; db.session.commit()]. *)
Definition set_qr_image_path_commit (product : ProductTrace.t) (qr_path : string)
  : M unit :=
  updated <- datetime_utcnow ;;
  fun w => transaction
             (inr (tt, update_qr_image_path (ProductTrace.id product) qr_path updated (db w))) w.

(** Lines 157-158: [db.session.add(log); db.session.commit()]. *)
Definition add_commit_scan_log (log : ScanLog.t) : M unit :=
  scanned <- datetime_utcnow ;;
  fun w => transaction (inr (tt, insert_scan_log log scanned (db w))) w.

Definition query_filter_by_trace_id_first (tid : string) : M (option ProductTrace.t) :=
  fun w => (inr (find_by_trace_id (db w) tid), w).

(** *** generate_trace_id *)

Definition generate_trace_id : M string :=
  today <- datetime_now ;;
  random16 <- os_urandom16 ;;
  ret (trace_id_of today random16).

(** *** generate_qr *)

(** [os.makedirs(save_dir, exist_ok=True)]. *)
Definition os_makedirs : M unit :=
  fun w =>
    let w' := mkWorld (db w) (files w) (clock_reads w) (random_reads w)
                      (commits w) (S (disk_ops w)) in
    if disk_ok E (disk_ops w) then (inr tt, w') else (inl OSError, w').

(** [qrcode.make(url)]: the image is represented by the text it encodes. *)
Definition qrcode_make (url : string) : M string :=
  if qr_encodable E url then ret url else raise ValueError.

(** [img.save(file_path)]: the file is replaced when the write goes
    through.  What a failed write leaves at that path is not tracked. *)
Definition img_save (img file_path : string) : M unit :=
  fun w =>
    if disk_ok E (disk_ops w)
    then (inr tt,
          mkWorld (db w)
                  ((file_path, img) :: filter (fun f => negb (fst f =? file_path)) (files w))
                  (clock_reads w) (random_reads w) (commits w) (S (disk_ops w)))
    else (inl OSError,
          mkWorld (db w) (files w) (clock_reads w) (random_reads w)
                  (commits w) (S (disk_ops w))).

Definition base_url : string :=
  "https://zj-1008.github.io/trace-system/trace_page.html?trace_id=".

Definition qr_file_path (trace_id : string) : string :=
  let save_dir := os_path_join "static" ["qrcodes"] in
  os_path_join save_dir [trace_id ++ ".png"].

Definition generate_qr (trace_id : string) : M string :=
  let url := base_url ++ trace_id in
  os_makedirs ;;
  let file_path := qr_file_path trace_id in
  img <- qrcode_make url ;;
  img_save img file_path ;;
  ret file_path.

(** *** The routes *)

(** /admin/products *)
Fixpoint insert_by_id_desc (p : ProductTrace.t) (l : list ProductTrace.t)
  : list ProductTrace.t :=
  match l with
  | [] => [p]
  | q :: l' =>
      match ProductTrace.id p, ProductTrace.id q with
      | Some i, Some j => if (j <=? i)%Z then p :: l else q :: insert_by_id_desc p l'
      | _, _ => p :: l
      end
  end.

Definition order_by_id_desc (l : list ProductTrace.t) : list ProductTrace.t :=
  fold_right insert_by_id_desc [] l.

Definition admin_products : M response :=
  fun w => (inr (Rendered "admin_list.html" (order_by_id_desc (products (db w)))), w).

(** /admin/products/new *)

(** The constructor call of lines 108-124, once [int] has returned. *)
Definition new_product (form : list (string * string)) (trace_id : string)
                       (warranty : Z) : ProductTrace.t :=
  ProductTrace.mk None trace_id
    (form_get form "product_name")
    (form_get form "model")
    (form_get form "material")
    (form_get form "material_origin")
    (form_get form "material_batch")
    (form_get form "standard_code")
    (form_get form "function_desc")
    (form_get form "key_params")
    (form_get form "prod_batch")
    (form_get form "prod_date")
    (form_get form "prod_line")
    (form_get form "qc_result")
    (form_get form "qc_person")
    (Some warranty)
    None None None.

(** The argument of [int] on line 123. *)
Definition warranty_field (form : list (string * string)) : pyval :=
  py_or (pyval_of (form_get form "warranty_months")) (PyInt 0).

Definition admin_new_product (request : request) : M response :=
  match method request with
  | POST =>
      trace_id <- generate_trace_id ;;
      warranty <- lift (py_int (warranty_field (form request))) ;;
      let product := new_product (form request) trace_id warranty in
      product <- add_commit_product product ;;
      qr_path <- generate_qr trace_id ;;
      set_qr_image_path_commit product qr_path ;;
      ret (Redirect "/admin/products")
  | GET => ret (Rendered "admin_form.html" [])
  end.

(** /p/<trace_id> *)

(** The constructor call of lines 152-156. *)
Definition new_scan_log (request : request) (trace_id : string) : ScanLog.t :=
  ScanLog.mk None trace_id (remote_addr request)
    (Some (match user_agent_header request with
           | Some ua => ua
           | None => EmptyString
           end))
    None.

Definition trace_page (request : request) (trace_id : string) : M response :=
  found <- query_filter_by_trace_id_first trace_id ;;
  match found with
  | None => raise NotFound
  | Some product =>
      let log := new_scan_log request trace_id in
      add_commit_scan_log log ;;
      ret (Rendered "trace_page.html" [product])
  end.

(** *** What the client sees *)

Inductive outcome :=
| Status200 (template : string) (context : list ProductTrace.t)
| Status302 (location : string)
| Status404
| Status500 (e : exn).

(** Flask turns a returned value into a response, the exception of
    [abort(404)] into a 404 and every other exception into a 500. *)
Definition serve (handler : M response) (w : world) : outcome * world :=
  match handler w with
  | (inr (Rendered t c), w') => (Status200 t c, w')
  | (inr (Redirect l), w') => (Status302 l, w')
  | (inl NotFound, w') => (Status404, w')
  | (inl e, w') => (Status500 e, w')
  end.

(** A request as the router hands it to a view. *)
Inductive call :=
| AdminProducts
| AdminNewProduct (r : request)
| TracePage (r : request) (trace_id : string).

Definition dispatch (c : call) : world -> outcome * world :=
  match c with
  | AdminProducts => serve admin_products
  | AdminNewProduct r => serve (admin_new_product r)
  | TracePage r tid => serve (trace_page r tid)
  end.

(** The worlds the application can be in: the empty database, then one
    request after another. *)
Inductive reachable : world -> Prop :=
| reachable_initial : reachable initial_world
| reachable_step w c : reachable w -> reachable (snd (dispatch c w)).

(** A clock that never reads the same or an earlier instant twice. *)
Definition clock_increasing : Prop :=
  forall i j, i < j -> (utcnow E i < utcnow E j)%Z.

(** A row that a submission left: its identifier was generated from a
    reading of the clock and a draw that were taken, and its creation
    time is the reading that followed. *)
Definition submitted_row (w : world) (p : ProductTrace.t) : Prop :=
  exists i j,
    S i < clock_reads w /\ j < random_reads w /\
    ProductTrace.trace_id p = trace_id_of (now E i) (urandom16 E j) /\
    ProductTrace.created_at p = Some (utcnow E (S i)).

Definition rows_submitted (w : world) : Prop :=
  forall p, In p (products (db w)) -> submitted_row w p.

End Handlers.

(** The 256 characters, to count the members of a character class. *)
Definition all_ascii : list ascii := map ascii_of_nat (seq 0 256).

(** ** Sample runs *)

Module Sample.

(** Nothing fails, the clock advances by one microsecond per reading and
    every draw gives different leading bytes. *)
Definition steady : env :=
  mkEnv (fun n => 1764115200000000 + Z.of_nat n)%Z
        (fun _ => mkDate 2025 11 26)
        (fun n => (0xa1b2c3 + N.of_nat n) * 2 ^ 104)%N
        (fun _ => true) (fun _ => true) (fun _ => true).

(** The database file refuses every transaction after the first two. *)
Definition locked_after_two : env :=
  mkEnv (utcnow steady) (now steady) (urandom16 steady)
        (fun n => Nat.ltb n 2) (fun _ => true) (fun _ => true).

(** The clock is set back by a second after its fourth reading. *)
Definition clock_set_back : env :=
  mkEnv (fun n => if Nat.ltb n 4 then utcnow steady n else utcnow steady n - 1000000)%Z
        (now steady) (urandom16 steady)
        (fun _ => true) (fun _ => true) (fun _ => true).

(** The first two draws give the same leading bytes, the third differs. *)
Definition colliding : env :=
  mkEnv (utcnow steady) (now steady)
        (fun n => if Nat.ltb n 2 then urandom16 steady 0 else urandom16 steady n)
        (fun _ => true) (fun _ => true) (fun _ => true).

(** The disk refuses every write. *)
Definition disk_full : env :=
  mkEnv (utcnow steady) (now steady) (urandom16 steady)
        (fun _ => true) (fun _ => true) (fun _ => false).

Definition widget_request : request :=
  mkRequest POST [("product_name", "Widget"); ("warranty_months", EmptyString)]
            (Some "192.0.2.1") None.

Definition bad_warranty_request : request :=
  mkRequest POST [("product_name", "Widget"); ("warranty_months", "abc")]
            (Some "192.0.2.1") None.

Definition scan_request : request :=
  mkRequest GET [] (Some "203.0.113.7") (Some "Mozilla/5.0").

Definition widget : call := AdminNewProduct widget_request.

Definition widget_bad_warranty : call := AdminNewProduct bad_warranty_request.

Definition scan (trace_id : string) : call := TracePage scan_request trace_id.

(** The identifier the first draw of [steady] gives on 2025-11-26. *)
Definition widget_id : string := "P20251126A1B2C3".

(** The world after one submission of [widget]. *)
Definition one_widget (E : env) : world := snd (dispatch E widget initial_world).

(** The first row of the product table (a blank object if there is none). *)
Definition first_row (w : world) : ProductTrace.t :=
  hd (new_product [] EmptyString 0) (products (db w)).

Definition last_scan_log (w : world) : ScanLog.t :=
  last (scan_logs (db w)) (new_scan_log scan_request EmptyString).

End Sample.

(** ** Notions used to state what the store keeps *)


(** The keys 1, 2, ..., n, as SQLite hands them out to n inserts. *)
Definition keys_from_one (n : nat) : list (option Z) :=
  map (fun k => Some (Z.of_nat k)) (seq 1 n).

(** A row the INSERT and the UPDATE of the submission can have left. *)
Definition row_consistent (p : ProductTrace.t) : Prop :=
  ProductTrace.product_name p <> None /\
  (exists z, ProductTrace.warranty_months p = Some z /\ int64 z = true) /\
  (ProductTrace.qr_image_path p = None \/
   ProductTrace.qr_image_path p = Some (qr_file_path (ProductTrace.trace_id p))).

(** What the two tables look like after any history of requests: keys in
    insertion order, one row per identifier, every row as a submission left
    it, and every scan log pointing at a row. *)
Definition store_consistent (d : database) : Prop :=
  map ProductTrace.id (products d) = keys_from_one (List.length (products d)) /\
  map ScanLog.id (scan_logs d) = keys_from_one (List.length (scan_logs d)) /\
  NoDup (map ProductTrace.trace_id (products d)) /\
  (forall p, In p (products d) -> row_consistent p) /\
  (forall l, In l (scan_logs d) ->
             exists p, In p (products d) /\
                       ProductTrace.trace_id p = ScanLog.trace_id l).

(** The exceptions a submission can end with. *)
Definition submission_error (e : exn) : bool :=
  match e with
  | ValueError | OverflowError | IntegrityError | OperationalError | OSError => true
  | TypeError | NotFound => false
  end.



(** What one request can do to the database: nothing, append a scan log for
    an identifier that was found, or append a product row, with or without
    the path of its image. *)
Inductive db_step (E : env) (w : world) (d' : database) : Prop :=
| step_none : d' = db w -> db_step E w d'
| step_scan r tid p :
    find_by_trace_id (db w) tid = Some p ->
    commit_ok E (commits w) = true ->
    d' = insert_scan_log (new_scan_log r tid) (utcnow E (clock_reads w)) (db w) ->
    db_step E w d'
| step_insert r warranty row db1 :
    method r = POST ->
    py_int (warranty_field (form r)) = inr warranty ->
    insert_product
      (new_product (form r)
         (trace_id_of (now E (clock_reads w)) (urandom16 E (random_reads w)))
         warranty)
      (utcnow E (S (clock_reads w))) (utcnow E (S (S (clock_reads w)))) (db w)
    = inr (row, db1) ->
    commit_ok E (commits w) = true ->
    (d' = db1 \/
     exists u, d' = mkDb (products (db w)
                          ++ [ProductTrace.with_qr_image_path row
                                (qr_file_path (ProductTrace.trace_id row)) u])
                         (scan_logs (db w))) ->
    db_step E w d'.

(** A history: the requests of a list served one after the other. *)
Definition run (E : env) (cs : list call) (w : world) : world :=
  fold_left (fun w c => snd (dispatch E c w)) cs w.

(** The digit an uppercase hexadecimal character stands for. *)
Definition hex_value (c : ascii) : N :=
  let n := N_of_ascii c in
  if (n <? 58)%N then (n - 48)%N else (n - 55)%N.

(** The first three of the sixteen random bytes, as a number. *)
Definition leading_bytes (random16 : N) : N := ((random16 mod 2 ^ 128) / 2 ^ 104)%N.

(** Every row was created at one reading of the clock and last written at
    a later one, and every scan log was written at a reading later than
    the creation of a row that carries its identifier. *)
Definition stamps_ordered (E : env) (w : world) : Prop :=
  (forall p, In p (products (db w)) ->
     exists i k, i < k /\ k < clock_reads w /\
                 ProductTrace.created_at p = Some (utcnow E i) /\
                 ProductTrace.updated_at p = Some (utcnow E k)) /\
  (forall l, In l (scan_logs (db w)) ->
     exists p i k, In p (products (db w)) /\
                   ProductTrace.trace_id p = ScanLog.trace_id l /\
                   i < k /\ k < clock_reads w /\
                   ProductTrace.created_at p = Some (utcnow E i) /\
                   ScanLog.scanned_at l = Some (utcnow E k)).

(** * Properties *)

(** ** Facts about the text primitives *)

Module PyFacts.
Import Py.

Lemma length_append (s t : string) :
  String.length (s ++ t) = String.length s + String.length t.
Proof. induction s as [|c s IH]; simpl; [reflexivity | now rewrite IH]. Qed.

Lemma all_chars_append p (s t : string) :
  all_chars p (s ++ t) = all_chars p s && all_chars p t.
Proof.
  induction s as [|c s IH]; simpl; [reflexivity|].
  now rewrite IH, andb_assoc.
Qed.

Lemma length_zeros k : String.length (zeros k) = k.
Proof. induction k; simpl; congruence. Qed.

Lemma length_zfill width s :
  String.length s <= width -> String.length (zfill width s) = width.
Proof. intros H. unfold zfill. rewrite length_append, length_zeros. lia. Qed.

Lemma length_string_of_digits ds :
  String.length (string_of_digits ds) = List.length ds.
Proof. induction ds; simpl; congruence. Qed.

Lemma length_upper s : String.length (upper s) = String.length s.
Proof. induction s; simpl; congruence. Qed.

Lemma length_take k s :
  k <= String.length s -> String.length (take k s) = k.
Proof.
  revert s. induction k as [|k IH]; intros [|c s] H; simpl in *; try lia.
  rewrite IH; lia.
Qed.

Lemma take_append_exact (s t : string) : take (String.length s) (s ++ t) = s.
Proof. induction s as [|c s IH]; simpl; [now destruct t | now rewrite IH]. Qed.

Lemma drop_append_exact (s t : string) : drop (String.length s) (s ++ t) = t.
Proof. induction s as [|c s IH]; simpl; [reflexivity | exact IH]. Qed.

Lemma all_chars_take p k s : all_chars p s = true -> all_chars p (take k s) = true.
Proof.
  revert s. induction k as [|k IH]; intros [|c s]; simpl; auto.
  intros H. apply andb_true_iff in H as [-> H]. simpl. auto.
Qed.

(** *** Positional notation *)

Section Base.
Variable base : N.
Hypothesis base_pos : (0 < base)%N.

Lemma to_digits_below fuel : forall n acc,
  Forall (fun d => d < base)%N acc ->
  Forall (fun d => d < base)%N (to_digits base fuel n acc).
Proof.
  induction fuel as [|fuel IH]; intros n acc Hacc; simpl; [assumption|].
  assert (Hd : Forall (fun d => (d < base)%N) ((n mod base)%N :: acc)).
  { constructor; [apply N.mod_lt; lia | assumption]. }
  destruct (n / base =? 0)%N; auto.
Qed.

Lemma to_digits_length fuel : forall k n acc,
  1 <= k -> (n < base ^ N.of_nat k)%N ->
  List.length (to_digits base fuel n acc) <= k + List.length acc.
Proof.
  induction fuel as [|fuel IH]; intros k n acc Hk Hn; simpl; [lia|].
  destruct (N.eqb_spec (n / base) 0) as [Hq|Hq]; simpl; [lia|].
  destruct k as [|[|k]]; [lia| |].
  - exfalso. apply Hq. apply N.div_small.
    change (N.of_nat 1) with 1%N in Hn. now rewrite N.pow_1_r in Hn.
  - specialize (IH (S k) (n / base)%N ((n mod base)%N :: acc)).
    simpl List.length in IH.
    assert (n / base < base ^ N.of_nat (S k))%N.
    { apply N.Div0.div_lt_upper_bound.
      replace (N.of_nat (S (S k))) with (N.succ (N.of_nat (S k))) in Hn by lia.
      now rewrite N.pow_succ_r' in Hn. }
    lia.
Qed.

Lemma to_digits_value fuel : forall n acc,
  (1 < base)%N -> (n < 2 ^ N.of_nat fuel)%N ->
  value base (to_digits base fuel n acc) 0 = value base acc n.
Proof.
  induction fuel as [|fuel IH]; intros n acc Hb Hn; simpl.
  - change (2 ^ N.of_nat 0)%N with 1%N in Hn. now replace n with 0%N by lia.
  - assert (Hdm := N.div_mod n base ltac:(lia)).
    destruct (N.eqb_spec (n / base) 0) as [Hq|Hq].
    + unfold value. simpl. f_equal. rewrite Hq in Hdm. lia.
    + rewrite IH; auto.
      * unfold value. simpl. f_equal. lia.
      * replace (N.of_nat (S fuel)) with (N.succ (N.of_nat fuel)) in Hn by lia.
        rewrite N.pow_succ_r' in Hn.
        apply N.Div0.div_lt_upper_bound. nia.
Qed.

Lemma digits_value n : (1 < base)%N -> value base (digits base n) 0 = n.
Proof.
  intros Hb. unfold digits. rewrite to_digits_value; auto.
  replace (N.of_nat (S (N.to_nat (N.size n)))) with (N.succ (N.size n)) by lia.
  rewrite N.pow_succ_r'. pose proof (N.size_gt n). lia.
Qed.

Lemma digits_below n : Forall (fun d => d < base)%N (digits base n).
Proof. apply to_digits_below. constructor. Qed.

Lemma digits_length k n :
  1 <= k -> (n < base ^ N.of_nat k)%N -> List.length (digits base n) <= k.
Proof.
  intros Hk Hn. unfold digits.
  pose proof (to_digits_length (S (N.to_nat (N.size n))) k n [] Hk Hn) as H.
  cbn [List.length] in H. lia.
Qed.
End Base.

End PyFacts.

(** ** Facts about the generator *)

Module GenFacts.
Import Py PyFacts.

Ltac by_cases_below d :=
  destruct d as [|d]; [reflexivity|];
  do 5 (try destruct d as [d|d|]); try (exfalso; lia); reflexivity.

Lemma digit_char_decimal d : (d < 10)%N -> is_digit (digit_char d) = true.
Proof. intros H. by_cases_below d. Qed.

Lemma digit_char_value d : (d < 10)%N -> (N_of_ascii (digit_char d) - 48 = d)%N.
Proof. intros H. by_cases_below d. Qed.

Lemma digit_char_upper_hex d :
  (d < 16)%N -> is_upper_hex (upper_char (digit_char d)) = true.
Proof. intros H. by_cases_below d. Qed.

Lemma upper_hex_is_upper_alnum c : is_upper_hex c = true -> is_upper_alnum c = true.
Proof.
  unfold is_upper_hex, is_upper_alnum, is_upper_letter.
  destruct (is_digit c); simpl; [reflexivity|].
  rewrite !andb_true_iff, !N.leb_le. lia.
Qed.

Lemma all_chars_impl (p q : ascii -> bool) s :
  (forall c, p c = true -> q c = true) ->
  all_chars p s = true -> all_chars q s = true.
Proof.
  intros Hpq. induction s as [|c s IH]; simpl; [reflexivity|].
  rewrite !andb_true_iff. intros [Hc Hs]. auto.
Qed.

Lemma all_chars_upper p s :
  all_chars p (upper s) = all_chars (fun c => p (upper_char c)) s.
Proof. induction s as [|c s IH]; simpl; [reflexivity | now rewrite IH]. Qed.

Lemma all_chars_zeros p k : p "0"%char = true -> all_chars p (zeros k) = true.
Proof. intros H. induction k; simpl; [reflexivity | now rewrite H]. Qed.

Lemma all_chars_digits (p : ascii -> bool) base ds :
  (forall d, (d < base)%N -> p (digit_char d) = true) ->
  Forall (fun d => d < base)%N ds ->
  all_chars p (string_of_digits ds) = true.
Proof.
  intros Hp. induction 1 as [|d ds Hd _ IH]; simpl; [reflexivity|].
  now rewrite Hp, IH.
Qed.

(** A number below [base ^ width] is printed on exactly [width]
    characters, each the character of a digit or the padding zero. *)
Lemma zfill_digits_shape (p : ascii -> bool) base width n :
  (0 < base)%N -> 1 <= width -> (n < base ^ N.of_nat width)%N ->
  (forall d, (d < base)%N -> p (digit_char d) = true) ->
  let s := zfill width (string_of_digits (digits base n)) in
  String.length s = width /\ all_chars p s = true.
Proof.
  intros Hb Hw Hn Hp s. subst s. split.
  - apply length_zfill. rewrite length_string_of_digits.
    now apply digits_length.
  - unfold zfill. rewrite all_chars_append, all_chars_zeros.
    + apply (all_chars_digits p base); [assumption | now apply digits_below].
    + apply (Hp 0%N). assumption.
Qed.

Lemma format_d_shape width n :
  1 <= width -> (n < 10 ^ N.of_nat width)%N ->
  String.length (format_d width n) = width /\
  all_chars is_digit (format_d width n) = true.
Proof.
  intros Hw Hn.
  apply (zfill_digits_shape is_digit 10 width n); auto using digit_char_decimal.
  reflexivity.
Qed.

Lemma format_x_shape width n :
  1 <= width -> (n < 16 ^ N.of_nat width)%N ->
  String.length (format_x width n) = width /\
  all_chars (fun c => is_upper_hex (upper_char c)) (format_x width n) = true.
Proof.
  intros Hw Hn.
  apply (zfill_digits_shape _ 16 width n); auto using digit_char_upper_hex.
  reflexivity.
Qed.

(** *** The value of a printed number *)

Lemma decimal_value_append s t acc :
  decimal_value (s ++ t) acc = decimal_value t (decimal_value s acc).
Proof. revert acc. induction s as [|c s IH]; intros acc; simpl; auto. Qed.

Lemma decimal_value_zeros k : decimal_value (zeros k) 0 = 0%N.
Proof. induction k; simpl; auto. Qed.

Lemma decimal_value_digits ds : forall acc,
  Forall (fun d => d < 10)%N ds ->
  decimal_value (string_of_digits ds) acc = value 10 ds acc.
Proof.
  induction ds as [|d ds IH]; intros acc H; [reflexivity|].
  inversion H; subst. cbn [string_of_digits decimal_value].
  rewrite digit_char_value by assumption.
  rewrite IH by assumption. unfold value. cbn [fold_left].
  now rewrite (N.mul_comm 10 acc).
Qed.

Lemma decimal_value_shift s : forall acc,
  decimal_value s acc
  = (acc * 10 ^ N.of_nat (String.length s) + decimal_value s 0)%N.
Proof.
  induction s as [|c s IH]; intros acc.
  - simpl. change (10 ^ N.of_nat 0)%N with 1%N. lia.
  - cbn [decimal_value String.length].
    rewrite IH. rewrite (IH (10 * 0 + _)%N).
    replace (N.of_nat (S (String.length s))) with (N.succ (N.of_nat (String.length s))) by lia.
    rewrite N.pow_succ_r'. lia.
Qed.

Lemma decimal_value_format_d width n :
  decimal_value (format_d width n) 0 = n.
Proof.
  unfold format_d, zfill.
  rewrite decimal_value_append, decimal_value_zeros.
  rewrite decimal_value_digits by (apply digits_below; reflexivity).
  apply digits_value; reflexivity.
Qed.

(** *** The date and the random characters *)

Lemma strftime_Ymd_shape d :
  valid_date d ->
  String.length (strftime_Ymd d) = 8 /\
  all_chars is_digit (strftime_Ymd d) = true /\
  decimal_value (strftime_Ymd d) 0 = (year d * 10000 + month d * 100 + day d)%N.
Proof.
  intros (Hy & Hm & Hd). unfold strftime_Ymd.
  destruct (format_d_shape 4 (year d)) as [Ly Cy]; [lia | simpl; lia |].
  destruct (format_d_shape 2 (month d)) as [Lm Cm]; [lia | simpl; lia |].
  destruct (format_d_shape 2 (day d)) as [Ld Cd]; [lia | simpl; lia |].
  repeat split.
  - rewrite !length_append. lia.
  - rewrite !all_chars_append, Cy, Cm, Cd. reflexivity.
  - rewrite !decimal_value_append.
    rewrite (decimal_value_shift (format_d 2 (day d))), Ld.
    rewrite (decimal_value_shift (format_d 2 (month d))), Lm.
    rewrite !decimal_value_format_d. simpl. lia.
Qed.

Lemma lor_below a b n :
  (0 < n)%N -> (a < 2 ^ n)%N -> (b < 2 ^ n)%N -> (N.lor a b < 2 ^ n)%N.
Proof.
  intros Hn Ha Hb.
  destruct (N.eq_dec (N.lor a b) 0) as [->|Hz].
  - apply N.neq_0_lt_0, N.pow_nonzero. discriminate.
  - apply N.log2_lt_pow2; [lia|]. rewrite N.log2_lor.
    assert (N.log2 a < n)%N.
    { destruct (N.eq_dec a 0) as [->|]; [simpl; lia|]. apply N.log2_lt_pow2; lia. }
    assert (N.log2 b < n)%N.
    { destruct (N.eq_dec b 0) as [->|]; [simpl; lia|]. apply N.log2_lt_pow2; lia. }
    lia.
Qed.

Lemma uuid4_int_below r : (uuid4_int r < 2 ^ 128)%N.
Proof.
  unfold uuid4_int.
  assert (H0 : (r mod 2 ^ 128 < 2 ^ 128)%N) by (apply N.mod_lt; discriminate).
  set (i0 := (r mod 2 ^ 128)%N) in *.
  pose proof (N.ldiff_le_l i0 (N.shiftl 49152 48)) as H1.
  set (i1 := N.ldiff i0 _) in *.
  assert (H2 : (N.lor i1 (N.shiftl 32768 48) < 2 ^ 128)%N).
  { apply lor_below; [reflexivity | lia | reflexivity]. }
  set (i2 := N.lor i1 _) in *.
  pose proof (N.ldiff_le_l i2 (N.shiftl 61440 64)) as H3.
  set (i3 := N.ldiff i2 _) in *.
  apply lor_below; [reflexivity | lia | reflexivity].
Qed.

Lemma random_chars_shape r :
  let rand := upper (take 6 (uuid_hex (uuid4_int r))) in
  String.length rand = 6 /\ all_chars is_upper_hex rand = true.
Proof.
  destruct (format_x_shape 32 (uuid4_int r)) as [L C];
    [lia | apply uuid4_int_below |].
  cbv zeta. unfold uuid_hex. split.
  - rewrite length_upper, length_take; lia.
  - rewrite all_chars_upper. now apply all_chars_take.
Qed.

Lemma generate_trace_id_returns E w :
  generate_trace_id E w
  = (inr (trace_id_of (now E (clock_reads w)) (urandom16 E (random_reads w))),
     mkWorld (db w) (files w) (S (clock_reads w)) (S (random_reads w))
             (commits w) (disk_ops w)).
Proof. reflexivity. Qed.

Lemma trace_id_of_parts today r :
  valid_date today ->
  let tid := trace_id_of today r in
  take 1 tid = "P" /\
  date_part tid = strftime_Ymd today /\
  random_part tid = upper (take 6 (uuid_hex (uuid4_int r))).
Proof.
  intros Hv tid. destruct (strftime_Ymd_shape today Hv) as (L & _ & _).
  subst tid. unfold trace_id_of, date_part, random_part. cbv zeta.
  set (D := strftime_Ymd today) in *.
  set (R := upper _).
  change ("P" ++ D ++ R) with (String "P" (D ++ R)).
  change (drop 1 (String "P" (D ++ R))) with (D ++ R).
  change (drop 9 (String "P" (D ++ R))) with (drop 8 (D ++ R)).
  rewrite <- L. repeat split.
  - apply take_append_exact.
  - apply drop_append_exact.
Qed.
End GenFacts.

(** ** Facts about the store and the lookup *)

Module StoreFacts.

Lemma find_by_trace_id_some db tid p :
  find_by_trace_id db tid = Some p ->
  In p (products db) /\ ProductTrace.trace_id p = tid.
Proof.
  unfold find_by_trace_id. intros H. apply find_some in H as [Hin Heq].
  split; [assumption | now apply String.eqb_eq].
Qed.

Lemma find_by_trace_id_none db tid :
  find_by_trace_id db tid = None <->
  (forall p, In p (products db) -> ProductTrace.trace_id p <> tid).
Proof.
  unfold find_by_trace_id. split.
  - intros H p Hin Heq. apply (find_none _ _ H) in Hin.
    apply String.eqb_neq in Hin. contradiction.
  - intros H. destruct (find _ _) as [p|] eqn:F; [|reflexivity].
    apply find_some in F as [Hin Heq]. apply String.eqb_eq in Heq.
    now apply H in Hin.
Qed.

Lemma find_by_trace_id_present db tid p :
  In p (products db) -> ProductTrace.trace_id p = tid ->
  exists q, find_by_trace_id db tid = Some q.
Proof.
  intros Hin Heq. destruct (find_by_trace_id db tid) as [q|] eqn:F; [eauto|].
  exfalso. rewrite find_by_trace_id_none in F. exact (F p Hin Heq).
Qed.

Lemma find_app_fresh {A} (f : A -> bool) l x :
  find f l = None -> f x = true -> find f (l ++ [x]) = Some x.
Proof.
  intros Hn Hx. induction l as [|a l IH]; simpl in *; [now rewrite Hx|].
  destruct (f a); [discriminate | auto].
Qed.

Lemma find_map_preserving {A} (f : A -> bool) (g : A -> A) l :
  (forall a, f (g a) = f a) ->
  find f (map g l) = option_map g (find f l).
Proof.
  intros H. induction l as [|a l IH]; simpl; [reflexivity|].
  rewrite H. destruct (f a); [reflexivity | exact IH].
Qed.

End StoreFacts.

Module LookupFacts.
Import StoreFacts.

Section Lookup.
Variable E : env.
Variables (r : request) (tid : string).

Lemma trace_page_miss w :
  find_by_trace_id (db w) tid = None ->
  trace_page E r tid w = (inl NotFound, w).
Proof.
  intros H. unfold trace_page, bind, query_filter_by_trace_id_first.
  now rewrite H.
Qed.

Lemma trace_page_hit w p :
  find_by_trace_id (db w) tid = Some p ->
  trace_page E r tid w =
  if commit_ok E (commits w)
  then (inr (Rendered "trace_page.html" [p]),
        mkWorld (insert_scan_log (new_scan_log r tid) (utcnow E (clock_reads w)) (db w))
                (files w) (S (clock_reads w)) (random_reads w)
                (S (commits w)) (disk_ops w))
  else (inl OperationalError,
        mkWorld (db w) (files w) (S (clock_reads w)) (random_reads w)
                (S (commits w)) (disk_ops w)).
Proof.
  intros H. unfold trace_page, bind, query_filter_by_trace_id_first.
  rewrite H. unfold add_commit_scan_log, bind, datetime_utcnow, transaction.
  cbn [db files clock_reads random_reads commits disk_ops].
  now destruct (commit_ok E (commits w)).
Qed.
End Lookup.
End LookupFacts.

(** ** Facts about the submission *)

Module IngestFacts.
Import StoreFacts.

Lemma join_step_relative path b :
  Py.startswith b "/" = false -> path <> EmptyString -> Py.endswith path "/" = false ->
  join_step path b = path ++ "/" ++ b.
Proof.
  intros Hb Hp He. unfold join_step. rewrite Hb, He.
  destruct (String.eqb_spec path EmptyString); [contradiction | reflexivity].
Qed.

Lemma qr_file_path_relative tid :
  Py.startswith tid "/" = false ->
  qr_file_path tid = "static/qrcodes/" ++ tid ++ ".png".
Proof.
  intros H. unfold qr_file_path, os_path_join. cbn [fold_left].
  change (join_step "static" "qrcodes") with "static/qrcodes".
  rewrite join_step_relative; [reflexivity | | discriminate | reflexivity].
  destruct tid; [reflexivity | exact H].
Qed.

Lemma trace_id_of_relative today r :
  Py.startswith (trace_id_of today r) "/" = false.
Proof. reflexivity. Qed.

Section Ingest.
Variable E : env.

Lemma generate_qr_spec tid w :
  generate_qr E tid w =
  let w1 := mkWorld (db w) (files w) (clock_reads w) (random_reads w)
                    (commits w) (S (disk_ops w)) in
  if disk_ok E (disk_ops w) then
    if qr_encodable E (base_url ++ tid) then
      if disk_ok E (S (disk_ops w)) then
        (inr (qr_file_path tid),
         mkWorld (db w)
           ((qr_file_path tid, base_url ++ tid)
              :: filter (fun f => negb (fst f =? qr_file_path tid)) (files w))
           (clock_reads w) (random_reads w) (commits w) (S (S (disk_ops w))))
      else
        (inl OSError,
         mkWorld (db w) (files w) (clock_reads w) (random_reads w)
                 (commits w) (S (S (disk_ops w))))
    else (inl ValueError, w1)
  else (inl OSError, w1).
Proof.
  unfold generate_qr, bind, os_makedirs, qrcode_make, img_save, ret, raise.
  cbv zeta.
  destruct (disk_ok E (disk_ops w)); [|reflexivity].
  destruct (qr_encodable E (base_url ++ tid)); [|reflexivity].
  cbn [db files clock_reads random_reads commits disk_ops].
  now destruct (disk_ok E (S (disk_ops w))).
Qed.

Lemma add_commit_product_spec product w :
  add_commit_product E product w =
  let c := clock_reads w in
  let w' := mkWorld (db w) (files w) (S (S c)) (random_reads w)
                    (S (commits w)) (disk_ops w) in
  match insert_product product (utcnow E c) (utcnow E (S c)) (db w) with
  | inl e => (inl e, w')
  | inr (row, db') =>
      if commit_ok E (commits w)
      then (inr row, mkWorld db' (files w) (S (S c)) (random_reads w)
                             (S (commits w)) (disk_ops w))
      else (inl OperationalError, w')
  end.
Proof.
  unfold add_commit_product, bind, datetime_utcnow, transaction.
  cbn [db files clock_reads random_reads commits disk_ops]. cbv zeta.
  destruct (insert_product _ _ _ _) as [e|[row db']]; [reflexivity|].
  now destruct (commit_ok E (commits w)).
Qed.

Lemma set_qr_image_path_commit_spec product path w :
  set_qr_image_path_commit E product path w =
  if commit_ok E (commits w)
  then (inr tt,
        mkWorld (update_qr_image_path (ProductTrace.id product) path
                   (utcnow E (clock_reads w)) (db w))
                (files w) (S (clock_reads w)) (random_reads w)
                (S (commits w)) (disk_ops w))
  else (inl OperationalError,
        mkWorld (db w) (files w) (S (clock_reads w)) (random_reads w)
                (S (commits w)) (disk_ops w)).
Proof.
  unfold set_qr_image_path_commit, bind, datetime_utcnow, transaction.
  cbn [db files clock_reads random_reads commits disk_ops].
  now destruct (commit_ok E (commits w)).
Qed.

(** The POST branch, cut after the identifier was generated and the
    form was read. *)
Lemma admin_new_product_post r w :
  method r = POST ->
  admin_new_product E r w =
  let tid := trace_id_of (now E (clock_reads w)) (urandom16 E (random_reads w)) in
  let w0 := mkWorld (db w) (files w) (S (clock_reads w)) (S (random_reads w))
                    (commits w) (disk_ops w) in
  match py_int (warranty_field (form r)) with
  | inl e => (inl e, w0)
  | inr warranty =>
      match add_commit_product E (new_product (form r) tid warranty) w0 with
      | (inl e, w1) => (inl e, w1)
      | (inr product, w1) =>
          match generate_qr E tid w1 with
          | (inl e, w2) => (inl e, w2)
          | (inr qr_path, w2) =>
              match set_qr_image_path_commit E product qr_path w2 with
              | (inl e, w3) => (inl e, w3)
              | (inr _, w3) => (inr (Redirect "/admin/products"), w3)
              end
          end
      end
  end.
Proof.
  intros Hm. unfold admin_new_product. rewrite Hm.
  unfold bind at 1. rewrite GenFacts.generate_trace_id_returns.
  unfold bind at 1. unfold lift. cbv zeta.
  destruct (py_int _) as [e|warranty]; [reflexivity|].
  unfold bind at 1.
  destruct (add_commit_product _ _ _) as [[e|product] w1]; [reflexivity|].
  unfold bind at 1.
  destruct (generate_qr _ _ _) as [[e|qr_path] w2]; [reflexivity|].
  unfold bind, ret.
  now destruct (set_qr_image_path_commit _ _ _ _) as [[e|[]] w3].
Qed.
End Ingest.
End IngestFacts.

Module FlowFacts.
Import StoreFacts IngestFacts.

Lemma insert_product_inv p c u d row d' :
  insert_product p c u d = inr (row, d') ->
  row = ProductTrace.flushed p (next_id (map ProductTrace.id (products d))) c u /\
  d' = mkDb (products d ++ [row]) (scan_logs d) /\
  find_by_trace_id d (ProductTrace.trace_id p) = None /\
  ProductTrace.product_name p <> None /\
  fits_column (ProductTrace.warranty_months p) = true.
Proof.
  unfold insert_product.
  destruct (fits_column _); [|discriminate]. cbn [negb].
  destruct (ProductTrace.product_name p); [|discriminate].
  destruct (find_by_trace_id _ _); [discriminate|].
  intros H. injection H as <- <-. repeat split. discriminate.
Qed.

Lemma insert_product_accepts p c u d :
  fits_column (ProductTrace.warranty_months p) = true ->
  ProductTrace.product_name p <> None ->
  find_by_trace_id d (ProductTrace.trace_id p) = None ->
  exists row, insert_product p c u d
              = inr (row, mkDb (products d ++ [row]) (scan_logs d)).
Proof.
  intros Hf Hn Hu. unfold insert_product. rewrite Hf, Hu. cbn [negb].
  destruct (ProductTrace.product_name p); [eauto | contradiction].
Qed.

Lemma insert_product_duplicate p c u d q :
  find_by_trace_id d (ProductTrace.trace_id p) = Some q ->
  exists e, insert_product p c u d = inl e /\
            (fits_column (ProductTrace.warranty_months p) = true ->
             ProductTrace.product_name p <> None -> e = IntegrityError).
Proof.
  intros Hq. unfold insert_product. rewrite Hq.
  destruct (fits_column _); cbn [negb].
  - destruct (ProductTrace.product_name p); eauto.
  - exists OverflowError. split; [reflexivity | discriminate].
Qed.

Lemma qr_update_keeps pid path u r :
  ProductTrace.trace_id (qr_update pid path u r) = ProductTrace.trace_id r /\
  ProductTrace.warranty_months (qr_update pid path u r) = ProductTrace.warranty_months r /\
  ProductTrace.created_at (qr_update pid path u r) = ProductTrace.created_at r /\
  ProductTrace.product_name (qr_update pid path u r) = ProductTrace.product_name r /\
  ProductTrace.id (qr_update pid path u r) = ProductTrace.id r.
Proof.
  unfold qr_update.
  destruct (ProductTrace.id r) as [i|] eqn:Hi, pid as [j|]; auto.
  destruct (i =? j)%Z; auto.
Qed.

Lemma update_qr_image_path_products pid path u d :
  products (update_qr_image_path pid path u d) = map (qr_update pid path u) (products d) /\
  scan_logs (update_qr_image_path pid path u d) = scan_logs d.
Proof. split; reflexivity. Qed.

Lemma find_after_update pid path u d tid :
  find_by_trace_id (update_qr_image_path pid path u d) tid
  = option_map (qr_update pid path u) (find_by_trace_id d tid).
Proof.
  unfold find_by_trace_id. cbn [products update_qr_image_path].
  apply (find_map_preserving _ (qr_update pid path u)).
  intros a. now destruct (qr_update_keeps pid path u a) as (-> & _).
Qed.

Section Flow.
Variable E : env.

(** Once the insert is committed, the rest of the POST branch leaves
    the new row in the table, with or without its image path. *)
Lemma admin_new_product_persisted r w warranty row db1 :
  method r = POST ->
  let c := clock_reads w in
  let tid := trace_id_of (now E c) (urandom16 E (random_reads w)) in
  py_int (warranty_field (form r)) = inr warranty ->
  insert_product (new_product (form r) tid warranty)
                 (utcnow E (S c)) (utcnow E (S (S c))) (db w) = inr (row, db1) ->
  commit_ok E (commits w) = true ->
  exists res w',
    admin_new_product E r w = (res, w') /\
    S (S (S c)) <= clock_reads w' /\
    random_reads w' = S (random_reads w) /\
    (db w' = db1 \/
     exists u, db w' = update_qr_image_path (ProductTrace.id row) (qr_file_path tid) u db1).
Proof.
  intros Hm c tid Hw Hi Hc.
  rewrite (admin_new_product_post E r w Hm). cbv zeta. fold c tid.
  rewrite Hw, add_commit_product_spec.
  cbn [db files clock_reads random_reads commits disk_ops]. cbv zeta.
  rewrite Hi, Hc, generate_qr_spec.
  cbn [db files clock_reads random_reads commits disk_ops]. cbv zeta.
  destruct (disk_ok E (disk_ops w)); [|eauto 7].
  destruct (qr_encodable E _); [|eauto 7].
  destruct (disk_ok E (S (disk_ops w))); [|eauto 7].
  rewrite set_qr_image_path_commit_spec.
  cbn [db files clock_reads random_reads commits disk_ops].
  destruct (commit_ok E (S (commits w)));
    do 2 eexists; (split; [reflexivity|]);
    cbn [db clock_reads random_reads]; repeat split; eauto.
Qed.

(** Before that point nothing was written. *)
Lemma admin_new_product_rejected r w :
  method r = POST ->
  let c := clock_reads w in
  let tid := trace_id_of (now E c) (urandom16 E (random_reads w)) in
  (forall warranty row db1,
      py_int (warranty_field (form r)) = inr warranty ->
      insert_product (new_product (form r) tid warranty)
                     (utcnow E (S c)) (utcnow E (S (S c))) (db w) = inr (row, db1) ->
      commit_ok E (commits w) = false) ->
  exists e w',
    admin_new_product E r w = (inl e, w') /\
    db w' = db w /\ files w' = files w /\
    c <= clock_reads w' /\
    random_reads w' = S (random_reads w) /\
    commits w' <= S (commits w) /\
    (e = OperationalError \/
     py_int (warranty_field (form r)) = inl e \/
     exists warranty,
       py_int (warranty_field (form r)) = inr warranty /\
       insert_product (new_product (form r) tid warranty)
                      (utcnow E (S c)) (utcnow E (S (S c))) (db w) = inl e).
Proof.
  intros Hm c tid H.
  rewrite (admin_new_product_post E r w Hm). cbv zeta. fold c tid.
  destruct (py_int _) as [e|warranty] eqn:Hw.
  { do 2 eexists. split; [reflexivity|]. cbn. repeat split; auto. }
  rewrite add_commit_product_spec.
  cbn [db files clock_reads random_reads commits disk_ops]. cbv zeta.
  destruct (insert_product _ _ _ _) as [e|[row db1]] eqn:Hi.
  { do 2 eexists. split; [reflexivity|]. cbn. repeat split; eauto 6. }
  rewrite (H _ _ _ eq_refl Hi).
  do 2 eexists. split; [reflexivity|]. cbn. repeat split; auto.
Qed.
End Flow.
End FlowFacts.

(** ** Facts about histories of requests *)

Module HistoryFacts.
Import StoreFacts LookupFacts IngestFacts FlowFacts.

Section History.
Variable E : env.

Lemma snd_serve h w : snd (serve h w) = snd (h w).
Proof.
  unfold serve. destruct (h w) as [[e|[t c|l]] w']; try reflexivity.
  now destruct e.
Qed.

Lemma submitted_row_later w w' p :
  submitted_row E w p ->
  clock_reads w <= clock_reads w' ->
  random_reads w <= random_reads w' ->
  submitted_row E w' p.
Proof.
  intros (i & j & Hi & Hj & Htid & Hcr) Hc Hr.
  exists i, j. repeat split; [lia | lia | assumption | assumption].
Qed.

Lemma rows_submitted_later w w' :
  rows_submitted E w ->
  products (db w') = products (db w) ->
  clock_reads w <= clock_reads w' ->
  random_reads w <= random_reads w' ->
  rows_submitted E w'.
Proof.
  intros H Hp Hc Hr p Hin. rewrite Hp in Hin.
  apply (submitted_row_later w); auto.
Qed.

Lemma trace_page_world r tid w :
  let w' := snd (trace_page E r tid w) in
  products (db w') = products (db w) /\
  clock_reads w <= clock_reads w' /\
  random_reads w' = random_reads w.
Proof.
  cbv zeta. destruct (find_by_trace_id (db w) tid) as [p|] eqn:F.
  - rewrite (trace_page_hit E r tid w p F).
    destruct (commit_ok E (commits w)); cbn; repeat split; auto.
  - rewrite (trace_page_miss E r tid w F). cbn. repeat split; auto.
Qed.

Lemma admin_new_product_keeps_rows_submitted r w :
  rows_submitted E w ->
  rows_submitted E (snd (admin_new_product E r w)).
Proof.
  intros Inv. destruct (method r) eqn:Hm.
  { unfold admin_new_product. rewrite Hm. exact Inv. }
  set (c := clock_reads w).
  set (tid := trace_id_of (now E c) (urandom16 E (random_reads w))).
  assert (Hrej : forall e w',
             admin_new_product E r w = (inl e, w') ->
             db w' = db w -> c <= clock_reads w' ->
             random_reads w' = S (random_reads w) ->
             rows_submitted E (snd (admin_new_product E r w))).
  { intros e w' -> Hdb Hc Hr. cbn [snd].
    apply (rows_submitted_later w); [assumption | now rewrite Hdb | exact Hc | lia]. }
  destruct (py_int (warranty_field (form r))) as [e|warranty] eqn:Hw.
  { destruct (admin_new_product_rejected E r w Hm)
      as (e' & w' & Hrun & Hdb & _ & Hc & Hr & _); [|eauto].
    intros ? ? ? Heq. rewrite Hw in Heq. discriminate. }
  destruct (insert_product (new_product (form r) tid warranty)
              (utcnow E (S c)) (utcnow E (S (S c))) (db w)) as [e|[row db1]] eqn:Hi.
  { destruct (admin_new_product_rejected E r w Hm)
      as (e' & w' & Hrun & Hdb & _ & Hc & Hr & _); [|eauto].
    intros ? ? ? Heq Hi'. rewrite Hw in Heq. injection Heq as <-.
    fold c tid in Hi'. rewrite Hi in Hi'. discriminate. }
  destruct (commit_ok E (commits w)) eqn:Hc.
  2:{ destruct (admin_new_product_rejected E r w Hm)
        as (e' & w' & Hrun & Hdb & _ & Hc' & Hr & _); [|eauto].
      intros; exact Hc. }
  destruct (admin_new_product_persisted E r w warranty row db1 Hm Hw Hi Hc)
    as (res & w' & -> & Hclk & Hrnd & Hdb).
  cbn [snd]. fold c in Hclk.
  apply insert_product_inv in Hi as (Hrow & Hdb1 & _).
  assert (Hnew : submitted_row E w' row).
  { exists c, (random_reads w). rewrite Hrow.
    repeat split; [lia | lia]. }
  assert (Hbase : forall p, In p (products db1) -> submitted_row E w' p).
  { intros p Hin. rewrite Hdb1 in Hin. cbn [products] in Hin.
    apply in_app_or in Hin as [Hin|[<-|[]]]; [|exact Hnew].
    apply (submitted_row_later w); [now apply Inv | fold c; lia | lia]. }
  unfold rows_submitted.
  destruct Hdb as [->|(u & ->)]; [exact Hbase|].
  intros p Hin. cbn [products update_qr_image_path] in Hin.
  apply in_map_iff in Hin as (q & <- & Hq).
  destruct (Hbase q Hq) as (i & j & Hi' & Hj & Htid & Hcr).
  exists i, j.
  match goal with
  | |- context [qr_update ?a ?b ?c ?d] =>
      destruct (qr_update_keeps a b c d) as (-> & _ & -> & _)
  end.
  repeat split; assumption.
Qed.

Lemma dispatch_keeps_rows_submitted c w :
  rows_submitted E w -> rows_submitted E (snd (dispatch E c w)).
Proof.
  intros Inv. destruct c as [|r|r tid]; cbn [dispatch]; rewrite snd_serve.
  - exact Inv.
  - now apply admin_new_product_keeps_rows_submitted.
  - destruct (trace_page_world r tid w) as (Hp & Hc & Hr).
    apply (rows_submitted_later w); [assumption | exact Hp | exact Hc | lia].
Qed.

Lemma reachable_rows_submitted w : reachable E w -> rows_submitted E w.
Proof.
  induction 1 as [|w c _ IH].
  - intros p [].
  - now apply dispatch_keeps_rows_submitted.
Qed.

(** Under a strictly increasing clock every row was created before the
    next reading. *)
Lemma reachable_created_before_now w p :
  clock_increasing E -> reachable E w -> In p (products (db w)) ->
  exists c, ProductTrace.created_at p = Some c /\
            (c < utcnow E (clock_reads w))%Z.
Proof.
  intros Hclock Hreach Hin.
  destruct (reachable_rows_submitted w Hreach p Hin) as (i & j & Hi & _ & _ & Hcr).
  exists (utcnow E (S i)). split; [assumption | now apply Hclock].
Qed.

(** Every identifier in the store came out of the generator, so its
    image path is under static/qrcodes. *)
Lemma reachable_qr_file_path w p :
  reachable E w -> In p (products (db w)) ->
  qr_file_path (ProductTrace.trace_id p)
  = "static/qrcodes/" ++ ProductTrace.trace_id p ++ ".png".
Proof.
  intros Hreach Hin.
  destruct (reachable_rows_submitted w Hreach p Hin) as (i & j & _ & _ & -> & _).
  apply qr_file_path_relative, trace_id_of_relative.
Qed.
End History.
End HistoryFacts.

(** * The claims *)

Import PyFacts GenFacts StoreFacts LookupFacts IngestFacts FlowFacts HistoryFacts.

(** ** The identifier generator *)

(** C6: every identifier generate_trace_id returns is the letter P, then the
    current date on exactly eight digits (YYYYMMDD), then exactly six
    characters that are digits or capital letters.  The generator always
    returns, whatever the world. *)
Theorem generate_trace_id_pattern (E : env) (w : world) :
  valid_date (now E (clock_reads w)) ->
  exists tid w',
    generate_trace_id E w = (inr tid, w') /\
    matches_pattern tid = true /\
    date_part tid = strftime_Ymd (now E (clock_reads w)) /\
    Py.decimal_value (date_part tid) 0
    = (year (now E (clock_reads w)) * 10000
       + month (now E (clock_reads w)) * 100
       + day (now E (clock_reads w)))%N.
Proof.
  intros Hv. rewrite generate_trace_id_returns. do 2 eexists.
  split; [reflexivity|].
  destruct (trace_id_of_parts _ (urandom16 E (random_reads w)) Hv) as (HP & HD & HR).
  destruct (strftime_Ymd_shape _ Hv) as (LD & CD & VD).
  destruct (random_chars_shape (urandom16 E (random_reads w))) as (LR & CR).
  repeat split.
  - unfold matches_pattern. rewrite HP, HD, HR, LD, LR, CD.
    rewrite (all_chars_impl _ _ _ upper_hex_is_upper_alnum CR). reflexivity.
  - exact HD.
  - rewrite HD. exact VD.
Qed.

Lemma generate_trace_id_pattern_witness :
  valid_date (now Sample.steady (clock_reads initial_world)) /\
  exists tid w',
    generate_trace_id Sample.steady initial_world = (inr tid, w') /\
    matches_pattern tid = true.
Proof.
  assert (H : valid_date (now Sample.steady (clock_reads initial_world))).
  { vm_compute. repeat split; discriminate. }
  split; [exact H|].
  destruct (generate_trace_id_pattern Sample.steady initial_world H)
    as (tid & w' & Hrun & Hpat & _).
  exists tid, w'. split; assumption.
Defined.

(** C9: every identifier generate_trace_id returns has exactly 15
    characters, and its last six are among the sixteen characters 0-9 and
    A-F, which are uppercase alphanumerics but not all of them. *)
Theorem generate_trace_id_length_and_alphabet (E : env) (w : world) :
  valid_date (now E (clock_reads w)) ->
  exists tid w',
    generate_trace_id E w = (inr tid, w') /\
    String.length tid = 15 /\
    String.length (random_part tid) = 6 /\
    Py.all_chars Py.is_upper_hex (random_part tid) = true /\
    filter Py.is_upper_hex all_ascii = list_ascii_of_string "0123456789ABCDEF" /\
    (forall c, Py.is_upper_hex c = true -> Py.is_upper_alnum c = true) /\
    (Py.is_upper_alnum "G" = true /\ Py.is_upper_hex "G" = false).
Proof.
  intros Hv. rewrite generate_trace_id_returns. do 2 eexists.
  split; [reflexivity|].
  destruct (trace_id_of_parts _ (urandom16 E (random_reads w)) Hv) as (_ & _ & HR).
  destruct (strftime_Ymd_shape _ Hv) as (LD & _ & _).
  destruct (random_chars_shape (urandom16 E (random_reads w))) as (LR & CR).
  split.
  { unfold trace_id_of. cbv zeta. rewrite !length_append, LD, LR. reflexivity. }
  split; [now rewrite HR|]. split; [now rewrite HR|].
  split; [vm_compute; reflexivity|].
  split; [exact upper_hex_is_upper_alnum|].
  split; vm_compute; reflexivity.
Qed.

Lemma generate_trace_id_length_and_alphabet_witness :
  valid_date (now Sample.steady (clock_reads initial_world)) /\
  exists tid w',
    generate_trace_id Sample.steady initial_world = (inr tid, w') /\
    String.length tid = 15.
Proof.
  assert (H : valid_date (now Sample.steady (clock_reads initial_world))).
  { vm_compute. repeat split; discriminate. }
  split; [exact H|].
  destruct (generate_trace_id_length_and_alphabet Sample.steady initial_world H)
    as (tid & w' & Hrun & Hlen & _).
  exists tid, w'. split; assumption.
Defined.

(** ** The image encoder *)

Lemma generate_qr_result E tid w p w' :
  generate_qr E tid w = (inr p, w') -> p = qr_file_path tid.
Proof.
  rewrite generate_qr_spec. cbv zeta.
  destruct (disk_ok E (disk_ops w)); [|discriminate].
  destruct (qr_encodable E _); [|discriminate].
  destruct (disk_ok E (S (disk_ops w))); [|discriminate].
  intros H. now injection H as <- _.
Qed.

Lemma generate_qr_error_db E tid w e w' :
  generate_qr E tid w = (inl e, w') ->
  (e = OSError \/ e = ValueError) /\ db w' = db w.
Proof.
  rewrite generate_qr_spec. cbv zeta.
  destruct (disk_ok E (disk_ops w)).
  - destruct (qr_encodable E _).
    + destruct (disk_ok E (S (disk_ops w))); [discriminate|].
      intros H. injection H as <- <-. auto.
    + intros H. injection H as <- <-. auto.
  - intros H. injection H as <- <-. auto.
Qed.

(** C7: encoding is idempotent on the path.  Two calls of generate_qr with
    the same trace identifier, in whatever worlds, return the same path, a
    function of the identifier alone; for every identifier that does not
    begin with a slash, so for every identifier the generator produces,
    that path is static/qrcodes/<identifier>.png. *)
Theorem generate_qr_path_idempotent
        (E1 E2 : env) (tid : string) (w1 w2 w1' w2' : world) (p1 p2 : string) :
  generate_qr E1 tid w1 = (inr p1, w1') ->
  generate_qr E2 tid w2 = (inr p2, w2') ->
  p1 = p2 /\
  p1 = qr_file_path tid /\
  (Py.startswith tid "/" = false -> p1 = "static/qrcodes/" ++ tid ++ ".png") /\
  (forall today random16,
      tid = trace_id_of today random16 -> p1 = "static/qrcodes/" ++ tid ++ ".png").
Proof.
  intros H1 H2.
  apply generate_qr_result in H1. apply generate_qr_result in H2. subst p1 p2.
  split; [reflexivity|]. split; [reflexivity|]. split.
  - apply qr_file_path_relative.
  - intros today random16 ->.
    apply qr_file_path_relative, trace_id_of_relative.
Qed.

Lemma generate_qr_path_idempotent_witness :
  "static/qrcodes/P20251126A1B2C3.png" = "static/qrcodes/P20251126A1B2C3.png" /\
  "static/qrcodes/P20251126A1B2C3.png" = qr_file_path Sample.widget_id /\
  (Py.startswith Sample.widget_id "/" = false ->
   "static/qrcodes/P20251126A1B2C3.png"
   = "static/qrcodes/" ++ Sample.widget_id ++ ".png") /\
  (forall today random16,
      Sample.widget_id = trace_id_of today random16 ->
      "static/qrcodes/P20251126A1B2C3.png"
      = "static/qrcodes/" ++ Sample.widget_id ++ ".png").
Proof.
  apply (generate_qr_path_idempotent Sample.steady Sample.steady Sample.widget_id
           initial_world
           (snd (generate_qr Sample.steady Sample.widget_id initial_world))
           (snd (generate_qr Sample.steady Sample.widget_id initial_world))
           (snd (generate_qr Sample.steady Sample.widget_id
                   (snd (generate_qr Sample.steady Sample.widget_id initial_world))))).
  - vm_compute. reflexivity.
  - vm_compute. reflexivity.
Defined.

(** ** The public lookup *)

(** C4: a lookup of an identifier that no row of the store carries answers
    404 and leaves the world as it was, so no scan log is created. *)
Theorem trace_page_unknown_identifier (E : env) (r : request) (tid : string) (w : world) :
  (forall p, In p (products (db w)) -> ProductTrace.trace_id p <> tid) ->
  dispatch E (TracePage r tid) w = (Status404, w) /\
  scan_logs (db (snd (dispatch E (TracePage r tid) w))) = scan_logs (db w).
Proof.
  intros H. apply find_by_trace_id_none in H.
  cbn [dispatch]. unfold serve. rewrite (trace_page_miss E r tid w H).
  split; reflexivity.
Qed.

Lemma trace_page_unknown_identifier_witness :
  dispatch Sample.steady (TracePage Sample.scan_request "P20250101AAAAAA")
    (Sample.one_widget Sample.steady)
  = (Status404, Sample.one_widget Sample.steady) /\
  scan_logs (db (snd (dispatch Sample.steady
                        (TracePage Sample.scan_request "P20250101AAAAAA")
                        (Sample.one_widget Sample.steady))))
  = scan_logs (db (Sample.one_widget Sample.steady)).
Proof.
  apply (trace_page_unknown_identifier Sample.steady).
  vm_compute. intros p [<-|[]] H. discriminate H.
Defined.

(** C10: a lookup, found or not, leaves every product row and every scan
    log that existed untouched; the only change it can make to the store is
    to append one scan log. *)
Theorem trace_page_frame (E : env) (r : request) (tid : string) (w : world) :
  products (db (snd (dispatch E (TracePage r tid) w))) = products (db w) /\
  (scan_logs (db (snd (dispatch E (TracePage r tid) w))) = scan_logs (db w) \/
   exists e, scan_logs (db (snd (dispatch E (TracePage r tid) w)))
             = (scan_logs (db w) ++ [e])%list) /\
  files (snd (dispatch E (TracePage r tid) w)) = files w.
Proof.
  cbn [dispatch]. rewrite snd_serve.
  destruct (find_by_trace_id (db w) tid) as [p|] eqn:F.
  - rewrite (trace_page_hit E r tid w p F).
    destruct (commit_ok E (commits w)); cbn; repeat split; eauto.
  - rewrite (trace_page_miss E r tid w F). cbn. auto.
Qed.

(** C2, as the code has it: when the lookup finds a record, the caller gets
    that record exactly when the scan log is written; a failed write is not
    swallowed, the request ends in a 500 and the store is left as it was. *)
Theorem trace_page_log_failure_propagates
        (E : env) (r : request) (tid : string) (w : world) (p : ProductTrace.t) :
  find_by_trace_id (db w) tid = Some p ->
  fst (dispatch E (TracePage r tid) w)
  = (if commit_ok E (commits w)
     then Status200 "trace_page.html" [p]
     else Status500 OperationalError) /\
  (commit_ok E (commits w) = false ->
   db (snd (dispatch E (TracePage r tid) w)) = db w).
Proof.
  intros F. cbn [dispatch]. unfold serve. rewrite (trace_page_hit E r tid w p F).
  destruct (commit_ok E (commits w)); cbn; split; auto. discriminate.
Qed.

Lemma trace_page_log_failure_propagates_witness :
  fst (dispatch Sample.locked_after_two (TracePage Sample.scan_request Sample.widget_id)
         (Sample.one_widget Sample.locked_after_two))
  = (if commit_ok Sample.locked_after_two
          (commits (Sample.one_widget Sample.locked_after_two))
     then Status200 "trace_page.html"
            [Sample.first_row (Sample.one_widget Sample.locked_after_two)]
     else Status500 OperationalError) /\
  (commit_ok Sample.locked_after_two
     (commits (Sample.one_widget Sample.locked_after_two)) = false ->
   db (snd (dispatch Sample.locked_after_two (TracePage Sample.scan_request Sample.widget_id)
              (Sample.one_widget Sample.locked_after_two)))
   = db (Sample.one_widget Sample.locked_after_two)).
Proof.
  apply (trace_page_log_failure_propagates Sample.locked_after_two).
  vm_compute. reflexivity.
Defined.

(** C2 refuted: the record is in the store, the write of the scan log is
    refused, and the caller gets a 500 instead of the record. *)
Lemma trace_page_log_failure_counterexample :
  find_by_trace_id (db (Sample.one_widget Sample.locked_after_two)) Sample.widget_id
  = Some (Sample.first_row (Sample.one_widget Sample.locked_after_two)) /\
  commit_ok Sample.locked_after_two
    (commits (Sample.one_widget Sample.locked_after_two)) = false /\
  fst (dispatch Sample.locked_after_two (Sample.scan Sample.widget_id)
         (Sample.one_widget Sample.locked_after_two))
  = Status500 OperationalError /\
  fst (dispatch Sample.locked_after_two (Sample.scan Sample.widget_id)
         (Sample.one_widget Sample.locked_after_two))
  <> Status200 "trace_page.html"
       [Sample.first_row (Sample.one_widget Sample.locked_after_two)].
Proof.
  vm_compute. repeat split. intros H. discriminate H.
Qed.

(** C5, as the code has it: a lookup of an identifier that a row of the
    store carries, whose scan log the database accepts, answers with the
    row found and appends exactly one scan log; that log carries the
    identifier looked up and the clock reading taken at the write.  In a
    world reached by requests under a strictly increasing clock, that
    reading is later than the row's creation time. *)
Theorem trace_page_logs_one_scan
        (E : env) (r : request) (tid : string) (w : world) (p : ProductTrace.t) :
  In p (products (db w)) ->
  ProductTrace.trace_id p = tid ->
  commit_ok E (commits w) = true ->
  exists found e,
    fst (dispatch E (TracePage r tid) w) = Status200 "trace_page.html" [found] /\
    In found (products (db w)) /\
    ProductTrace.trace_id found = tid /\
    scan_logs (db (snd (dispatch E (TracePage r tid) w)))
    = (scan_logs (db w) ++ [e])%list /\
    ScanLog.trace_id e = tid /\
    ScanLog.scanned_at e = Some (utcnow E (clock_reads w)) /\
    (clock_increasing E -> reachable E w ->
     exists c, ProductTrace.created_at found = Some c /\
               (c < utcnow E (clock_reads w))%Z).
Proof.
  intros Hin Htid Hc.
  destruct (find_by_trace_id_present (db w) tid p Hin Htid) as (found & F).
  destruct (find_by_trace_id_some _ _ _ F) as (Hfin & Hftid).
  exists found. eexists.
  cbn [dispatch]. unfold serve. rewrite (trace_page_hit E r tid w found F), Hc.
  cbn [fst snd db scan_logs insert_scan_log].
  split; [reflexivity|]. split; [assumption|]. split; [assumption|].
  split; [reflexivity|]. split; [reflexivity|]. split; [reflexivity|].
  intros Hclock Hreach.
  now apply reachable_created_before_now.
Qed.

Lemma trace_page_logs_one_scan_witness :
  exists found e c,
    fst (dispatch Sample.steady (TracePage Sample.scan_request Sample.widget_id)
           (Sample.one_widget Sample.steady))
    = Status200 "trace_page.html" [found] /\
    scan_logs (db (snd (dispatch Sample.steady
                          (TracePage Sample.scan_request Sample.widget_id)
                          (Sample.one_widget Sample.steady))))
    = (scan_logs (db (Sample.one_widget Sample.steady)) ++ [e])%list /\
    ScanLog.trace_id e = Sample.widget_id /\
    ProductTrace.created_at found = Some c /\
    (c < utcnow Sample.steady (clock_reads (Sample.one_widget Sample.steady)))%Z.
Proof.
  destruct (trace_page_logs_one_scan Sample.steady Sample.scan_request Sample.widget_id
              (Sample.one_widget Sample.steady)
              (Sample.first_row (Sample.one_widget Sample.steady)))
    as (found & e & H200 & _ & _ & Hlogs & Hid & _ & Hlater).
  - vm_compute. left. reflexivity.
  - vm_compute. reflexivity.
  - vm_compute. reflexivity.
  - destruct Hlater as (c & Hc & Hlt).
    + intros i j H. cbv beta iota delta [utcnow Sample.steady]. lia.
    + apply reachable_step, reachable_initial.
    + exists found, e, c. repeat split; assumption.
Defined.

(** C5 refuted, twice.  When the database refuses the write, a lookup of
    an identifier that is in the store creates no scan log at all.  When
    the clock was set back between the insert and the lookup, the one scan
    log created is stamped earlier than the row it refers to. *)
Lemma trace_page_logs_one_scan_counterexample :
  (find_by_trace_id (db (Sample.one_widget Sample.locked_after_two)) Sample.widget_id
   = Some (Sample.first_row (Sample.one_widget Sample.locked_after_two)) /\
   scan_logs (db (snd (dispatch Sample.locked_after_two (Sample.scan Sample.widget_id)
                         (Sample.one_widget Sample.locked_after_two))))
   = scan_logs (db (Sample.one_widget Sample.locked_after_two))) /\
  (find_by_trace_id (db (Sample.one_widget Sample.clock_set_back)) Sample.widget_id
   = Some (Sample.first_row (Sample.one_widget Sample.clock_set_back)) /\
   fst (dispatch Sample.clock_set_back (Sample.scan Sample.widget_id)
          (Sample.one_widget Sample.clock_set_back))
   = Status200 "trace_page.html" [Sample.first_row (Sample.one_widget Sample.clock_set_back)] /\
   scan_logs (db (snd (dispatch Sample.clock_set_back (Sample.scan Sample.widget_id)
                         (Sample.one_widget Sample.clock_set_back))))
   = (scan_logs (db (Sample.one_widget Sample.clock_set_back))
      ++ [Sample.last_scan_log
            (snd (dispatch Sample.clock_set_back (Sample.scan Sample.widget_id)
                    (Sample.one_widget Sample.clock_set_back)))])%list /\
   ProductTrace.created_at (Sample.first_row (Sample.one_widget Sample.clock_set_back))
   = Some 1764115200000001%Z /\
   ScanLog.scanned_at
     (Sample.last_scan_log
        (snd (dispatch Sample.clock_set_back (Sample.scan Sample.widget_id)
                (Sample.one_widget Sample.clock_set_back))))
   = Some 1764115199000004%Z).
Proof. vm_compute. repeat split. Qed.

(** ** The admin submission *)

Lemma warranty_field_default form :
  form_get form "warranty_months" = None \/ form_get form "warranty_months" = Some EmptyString ->
  py_int (warranty_field form) = inr 0%Z.
Proof. unfold warranty_field. intros [-> | ->]; reflexivity. Qed.

Lemma py_int_error v e : py_int v = inl e -> e = ValueError \/ e = TypeError.
Proof.
  destruct v as [|s|z]; simpl.
  - intros H. injection H as <-. auto.
  - destruct (int_of_str s); [discriminate|]. intros H. injection H as <-. auto.
  - discriminate.
Qed.

Lemma insert_product_error p c u d e :
  insert_product p c u d = inl e -> e = OverflowError \/ e = IntegrityError.
Proof.
  unfold insert_product. destruct (negb _).
  - intros H. injection H as <-. auto.
  - destruct (ProductTrace.product_name p).
    + destruct (find_by_trace_id _ _); [|discriminate].
      intros H. injection H as <-. auto.
    + intros H. injection H as <-. auto.
Qed.

(** C1, as the code has it: when the warranty_months field is absent or
    empty, and the store accepts the insert (a product name was sent, the
    generated identifier is not in use, the commit goes through), the
    record is persisted and its warranty_months is 0. *)
Theorem admin_new_product_warranty_default (E : env) (r : request) (w : world) :
  method r = POST ->
  form_get (form r) "warranty_months" = None \/
  form_get (form r) "warranty_months" = Some EmptyString ->
  form_get (form r) "product_name" <> None ->
  find_by_trace_id (db w)
    (trace_id_of (now E (clock_reads w)) (urandom16 E (random_reads w))) = None ->
  commit_ok E (commits w) = true ->
  exists row,
    find_by_trace_id (db (snd (dispatch E (AdminNewProduct r) w)))
      (trace_id_of (now E (clock_reads w)) (urandom16 E (random_reads w)))
    = Some row /\
    ProductTrace.warranty_months row = Some 0%Z /\
    ProductTrace.product_name row = form_get (form r) "product_name".
Proof.
  intros Hm Hf Hn Hfresh Hc.
  set (tid := trace_id_of _ _) in *.
  pose proof (warranty_field_default _ Hf) as Hw.
  destruct (insert_product_accepts (new_product (form r) tid 0)
              (utcnow E (S (clock_reads w))) (utcnow E (S (S (clock_reads w)))) (db w))
    as (row & Hi); [reflexivity | exact Hn | exact Hfresh |].
  destruct (admin_new_product_persisted E r w 0 row _ Hm Hw Hi Hc)
    as (res & w' & Hrun & _ & _ & Hdb).
  cbn [dispatch]. rewrite snd_serve, Hrun. cbn [snd].
  apply insert_product_inv in Hi as (Hrow & _).
  assert (Hfound : find_by_trace_id
                     (mkDb (products (db w) ++ [row]) (scan_logs (db w))) tid = Some row).
  { unfold find_by_trace_id. cbn [products]. apply find_app_fresh.
    - exact Hfresh.
    - rewrite Hrow. cbn. apply String.eqb_refl. }
  assert (Hcols : ProductTrace.warranty_months row = Some 0%Z /\
                  ProductTrace.product_name row = form_get (form r) "product_name").
  { rewrite Hrow. split; reflexivity. }
  destruct Hdb as [-> | (u & ->)].
  - exists row. split; [exact Hfound | exact Hcols].
  - rewrite find_after_update, Hfound. cbn [option_map].
    eexists. split; [reflexivity|].
    match goal with
    | |- context [qr_update ?a ?b ?c ?d] =>
        destruct (qr_update_keeps a b c d) as (_ & -> & _ & -> & _)
    end.
    exact Hcols.
Qed.

Lemma admin_new_product_warranty_default_witness :
  exists row,
    find_by_trace_id
      (db (snd (dispatch Sample.steady (AdminNewProduct Sample.widget_request)
                  initial_world)))
      (trace_id_of (now Sample.steady (clock_reads initial_world))
                   (urandom16 Sample.steady (random_reads initial_world)))
    = Some row /\
    ProductTrace.warranty_months row = Some 0%Z /\
    ProductTrace.product_name row = form_get (form Sample.widget_request) "product_name".
Proof.
  apply (admin_new_product_warranty_default Sample.steady Sample.widget_request
           initial_world).
  - reflexivity.
  - right. vm_compute. reflexivity.
  - vm_compute. discriminate.
  - vm_compute. reflexivity.
  - reflexivity.
Defined.

(** C1 refuted: with the text abc in the warranty_months field, [int]
    raises, the request ends in a 500 and nothing is persisted. *)
Lemma admin_new_product_warranty_counterexample :
  form_get (form Sample.bad_warranty_request) "warranty_months" = Some "abc" /\
  int_of_str "abc" = None /\
  fst (dispatch Sample.steady Sample.widget_bad_warranty initial_world)
  = Status500 ValueError /\
  products (db (snd (dispatch Sample.steady Sample.widget_bad_warranty initial_world)))
  = [].
Proof. vm_compute. repeat split. Qed.

(** C3, as the code has it: when the generated identifier is already in
    the store, the submission fails at once.  One identifier was drawn, at
    most one insert was tried, the store is as it was; with a form the
    store would otherwise accept, the failure is the duplicate-key error. *)
Theorem admin_new_product_fails_on_duplicate
        (E : env) (r : request) (w : world) (q : ProductTrace.t) :
  method r = POST ->
  find_by_trace_id (db w)
    (trace_id_of (now E (clock_reads w)) (urandom16 E (random_reads w))) = Some q ->
  exists e w',
    dispatch E (AdminNewProduct r) w = (Status500 e, w') /\
    db w' = db w /\
    random_reads w' = S (random_reads w) /\
    commits w' <= S (commits w) /\
    (forall warranty,
        py_int (warranty_field (form r)) = inr warranty ->
        int64 warranty = true ->
        form_get (form r) "product_name" <> None ->
        e = IntegrityError).
Proof.
  intros Hm Hq.
  set (tid := trace_id_of _ _) in *.
  destruct (admin_new_product_rejected E r w Hm)
    as (e & w' & Hrun & Hdb & _ & _ & Hrand & Hcom & Hwhy).
  { intros warranty row db1 _ Hi. exfalso. fold tid in Hi.
    apply insert_product_inv in Hi as (_ & _ & Hnone & _).
    cbn [new_product ProductTrace.trace_id] in Hnone. congruence. }
  fold tid in Hwhy.
  assert (Hcause : py_int (warranty_field (form r)) = inl e \/
                   exists warranty,
                     py_int (warranty_field (form r)) = inr warranty /\
                     insert_product (new_product (form r) tid warranty)
                       (utcnow E (S (clock_reads w))) (utcnow E (S (S (clock_reads w))))
                       (db w) = inl e).
  { destruct Hwhy as [-> | H]; [|exact H].
    right. destruct (py_int (warranty_field (form r))) as [e|warranty] eqn:Hw.
    - exfalso. revert Hrun. rewrite (admin_new_product_post E r w Hm). cbv zeta.
      rewrite Hw. intros H. injection H as H _.
      apply py_int_error in Hw as [->| ->]; discriminate.
    - exists warranty. split; [reflexivity|].
      revert Hrun. rewrite (admin_new_product_post E r w Hm). cbv zeta. fold tid.
      rewrite Hw, add_commit_product_spec. cbv zeta.
      cbn [db files clock_reads random_reads commits disk_ops].
      destruct (insert_product_duplicate (new_product (form r) tid warranty)
                  (utcnow E (S (clock_reads w))) (utcnow E (S (S (clock_reads w))))
                  (db w) q Hq) as (e' & -> & _).
      intros H. now injection H as <- _. }
  exists e, w'. cbn [dispatch]. unfold serve. rewrite Hrun.
  assert (He : e <> NotFound).
  { destruct Hcause as [H | (warranty & _ & H)].
    - apply py_int_error in H as [->| ->]; discriminate.
    - apply insert_product_error in H as [->| ->]; discriminate. }
  split; [destruct e; try reflexivity; contradiction|].
  repeat split; try assumption.
  intros warranty Hw Hfits Hname.
  destruct Hcause as [H | (warranty' & Hw' & H)]; [congruence|].
  rewrite Hw in Hw'. injection Hw' as <-.
  destruct (insert_product_duplicate (new_product (form r) tid warranty)
              (utcnow E (S (clock_reads w))) (utcnow E (S (S (clock_reads w))))
              (db w) q Hq) as (e' & He' & Hint).
  rewrite He' in H. injection H as <-. apply Hint; assumption.
Qed.

Lemma admin_new_product_fails_on_duplicate_witness :
  exists e w',
    dispatch Sample.colliding (AdminNewProduct Sample.widget_request)
      (Sample.one_widget Sample.colliding) = (Status500 e, w') /\
    db w' = db (Sample.one_widget Sample.colliding) /\
    random_reads w' = S (random_reads (Sample.one_widget Sample.colliding)) /\
    commits w' <= S (commits (Sample.one_widget Sample.colliding)) /\
    (forall warranty,
        py_int (warranty_field (form Sample.widget_request)) = inr warranty ->
        int64 warranty = true ->
        form_get (form Sample.widget_request) "product_name" <> None ->
        e = IntegrityError).
Proof.
  apply (admin_new_product_fails_on_duplicate Sample.colliding Sample.widget_request
           (Sample.one_widget Sample.colliding)
           (Sample.first_row (Sample.one_widget Sample.colliding))).
  - reflexivity.
  - vm_compute. reflexivity.
Defined.

(** C3 refuted: the second submission draws the identifier of the first.
    The insert is rejected and the request ends in a 500 after a single
    draw, although the next draw is an identifier that is free and a third
    submission goes through with it. *)
Lemma admin_new_product_retry_counterexample :
  fst (dispatch Sample.colliding Sample.widget (Sample.one_widget Sample.colliding))
  = Status500 IntegrityError /\
  random_reads (snd (dispatch Sample.colliding Sample.widget
                       (Sample.one_widget Sample.colliding)))
  = S (random_reads (Sample.one_widget Sample.colliding)) /\
  db (snd (dispatch Sample.colliding Sample.widget (Sample.one_widget Sample.colliding)))
  = db (Sample.one_widget Sample.colliding) /\
  find_by_trace_id (db (Sample.one_widget Sample.colliding))
    (trace_id_of (now Sample.colliding 0) (urandom16 Sample.colliding 2)) = None /\
  fst (dispatch Sample.colliding Sample.widget
         (snd (dispatch Sample.colliding Sample.widget
                 (Sample.one_widget Sample.colliding))))
  = Status302 "/admin/products".
Proof. vm_compute. repeat split. Qed.

(** C8: when the record has been persisted and the image step then fails,
    the submission ends in a 500 and the record stays: it is the last row of
    the table, the lookup by its identifier finds it, its key and its
    product name are set, no other row carries its identifier, and its
    qr_image_path is empty. *)
Theorem admin_new_product_keeps_record_when_qr_fails
        (E : env) (r : request) (w w1 w2 : world)
        (warranty : Z) (row : ProductTrace.t) (e : exn) :
  method r = POST ->
  py_int (warranty_field (form r)) = inr warranty ->
  add_commit_product E
    (new_product (form r)
       (trace_id_of (now E (clock_reads w)) (urandom16 E (random_reads w))) warranty)
    (snd (generate_trace_id E w)) = (inr row, w1) ->
  generate_qr E (trace_id_of (now E (clock_reads w)) (urandom16 E (random_reads w))) w1
  = (inl e, w2) ->
  dispatch E (AdminNewProduct r) w = (Status500 e, w2) /\
  products (db w2) = (products (db w) ++ [row])%list /\
  find_by_trace_id (db w2)
    (trace_id_of (now E (clock_reads w)) (urandom16 E (random_reads w))) = Some row /\
  ProductTrace.qr_image_path row = None /\
  ProductTrace.id row <> None /\
  ProductTrace.product_name row <> None /\
  (forall q, In q (products (db w)) ->
             ProductTrace.trace_id q <> ProductTrace.trace_id row).
Proof.
  intros Hm Hw Hadd Hqr.
  set (tid := trace_id_of _ _) in *.
  destruct (generate_qr_error_db E tid w1 e w2 Hqr) as (He & Hdb).
  assert (Hrun : admin_new_product E r w = (inl e, w2)).
  { rewrite (admin_new_product_post E r w Hm). cbv zeta. fold tid.
    rewrite generate_trace_id_returns in Hadd. cbn [snd] in Hadd.
    now rewrite Hw, Hadd, Hqr. }
  rewrite generate_trace_id_returns, add_commit_product_spec in Hadd.
  cbv zeta in Hadd. cbn [snd db files clock_reads random_reads commits disk_ops] in Hadd.
  destruct (insert_product _ _ _ _) as [e'|[row' db1]] eqn:Hi; [discriminate|].
  destruct (commit_ok E (commits w)); [|discriminate].
  injection Hadd as -> <-. cbn [db] in Hdb.
  apply insert_product_inv in Hi as (Hrow & Hdb1 & Hfresh & Hname & _).
  cbn [new_product ProductTrace.trace_id ProductTrace.product_name] in Hfresh, Hname.
  assert (Htid : ProductTrace.trace_id row = tid) by (rewrite Hrow; reflexivity).
  split.
  { cbn [dispatch]. unfold serve. rewrite Hrun.
    destruct He as [-> | ->]; reflexivity. }
  rewrite Hdb, Hdb1. cbn [products]. repeat split.
  - unfold find_by_trace_id. cbn [products]. apply find_app_fresh.
    + exact Hfresh.
    + rewrite Htid. apply String.eqb_refl.
  - rewrite Hrow. reflexivity.
  - rewrite Hrow. discriminate.
  - rewrite Hrow. exact Hname.
  - rewrite Htid. now apply find_by_trace_id_none.
Qed.

Lemma admin_new_product_keeps_record_when_qr_fails_witness :
  dispatch Sample.disk_full (AdminNewProduct Sample.widget_request) initial_world
  = (Status500 OSError, Sample.one_widget Sample.disk_full) /\
  products (db (Sample.one_widget Sample.disk_full))
  = (products (db initial_world)
     ++ [Sample.first_row (Sample.one_widget Sample.disk_full)])%list /\
  find_by_trace_id (db (Sample.one_widget Sample.disk_full))
    (trace_id_of (now Sample.disk_full (clock_reads initial_world))
                 (urandom16 Sample.disk_full (random_reads initial_world)))
  = Some (Sample.first_row (Sample.one_widget Sample.disk_full)) /\
  ProductTrace.qr_image_path (Sample.first_row (Sample.one_widget Sample.disk_full)) = None /\
  ProductTrace.id (Sample.first_row (Sample.one_widget Sample.disk_full)) <> None /\
  ProductTrace.product_name (Sample.first_row (Sample.one_widget Sample.disk_full)) <> None /\
  (forall q, In q (products (db initial_world)) ->
             ProductTrace.trace_id q
             <> ProductTrace.trace_id (Sample.first_row (Sample.one_widget Sample.disk_full))).
Proof.
  apply (admin_new_product_keeps_record_when_qr_fails Sample.disk_full
           Sample.widget_request initial_world
           (snd (add_commit_product Sample.disk_full
                   (new_product (form Sample.widget_request) Sample.widget_id 0)
                   (snd (generate_trace_id Sample.disk_full initial_world))))
           (Sample.one_widget Sample.disk_full)
           0%Z).
  - reflexivity.
  - vm_compute. reflexivity.
  - vm_compute. reflexivity.
  - vm_compute. reflexivity.
Defined.

(** * Beyond the claims *)

(** ** Keys and the effect of one request *)

Module KeyFacts.
Import StoreFacts IngestFacts FlowFacts HistoryFacts.

Lemma next_id_above ids z : In (Some z) ids -> (z < next_id ids)%Z.
Proof.
  unfold next_id. induction ids as [|i ids IH]; intros Hin; [destruct Hin|].
  cbn [fold_right]. destruct Hin as [-> | Hin].
  - lia.
  - specialize (IH Hin). destruct i; lia.
Qed.

Lemma next_id_positive ids : (0 < next_id ids)%Z.
Proof.
  unfold next_id. induction ids as [|i ids IH]; cbn [fold_right]; [lia|].
  destruct i; lia.
Qed.

Lemma fold_keys a n :
  fold_right (fun i m => match i with Some z => Z.max z m | None => m end) 0%Z
    (map (fun k => Some (Z.of_nat k)) (seq a n))
  = (if Nat.eqb n 0 then 0 else Z.of_nat (a + n - 1))%Z.
Proof.
  revert a. induction n as [|n IH]; intros a; [reflexivity|].
  cbn [seq map fold_right]. rewrite IH.
  destruct n; cbn [Nat.eqb]; lia.
Qed.

Lemma next_id_keys n : next_id (keys_from_one n) = Z.of_nat (S n).
Proof.
  unfold next_id, keys_from_one. rewrite fold_keys.
  destruct n; cbn [Nat.eqb]; lia.
Qed.

Lemma keys_from_one_succ n :
  keys_from_one (S n) = (keys_from_one n ++ [Some (Z.of_nat (S n))])%list.
Proof.
  unfold keys_from_one. rewrite seq_S, map_app. reflexivity.
Qed.

(** The UPDATE that follows an INSERT reaches the new row and no other. *)
Lemma qr_update_other_rows d path u rows :
  (forall q, In q rows -> In (ProductTrace.id q) (map ProductTrace.id (products d))) ->
  map (qr_update (Some (next_id (map ProductTrace.id (products d)))) path u) rows = rows.
Proof.
  intros H. induction rows as [|q rows IH]; [reflexivity|].
  cbn [map]. rewrite IH by (intros; apply H; now right). f_equal.
  unfold qr_update. destruct (ProductTrace.id q) as [i|] eqn:Hi; [|reflexivity].
  assert (Hin : In (Some i) (map ProductTrace.id (products d))).
  { rewrite <- Hi. apply H. now left. }
  apply next_id_above in Hin.
  destruct (Z.eqb_spec i (next_id (map ProductTrace.id (products d)))); [lia | reflexivity].
Qed.

Lemma update_new_row p c u d row db1 path u' :
  insert_product p c u d = inr (row, db1) ->
  update_qr_image_path (ProductTrace.id row) path u' db1
  = mkDb (products d ++ [ProductTrace.with_qr_image_path row path u']) (scan_logs d).
Proof.
  intros Hi. apply insert_product_inv in Hi as (Hrow & -> & _).
  unfold update_qr_image_path. cbn [products scan_logs]. f_equal.
  rewrite map_app. cbn [map].
  assert (Hid : ProductTrace.id row
                = Some (next_id (map ProductTrace.id (products d)))).
  { rewrite Hrow. reflexivity. }
  rewrite Hid. rewrite qr_update_other_rows by (intros q Hq; now apply in_map).
  f_equal. f_equal. unfold qr_update. rewrite Hid, Z.eqb_refl. reflexivity.
Qed.

Section Effect.
Variable E : env.

Lemma admin_new_product_db_step r w :
  db_step E w (db (snd (admin_new_product E r w))).
Proof.
  destruct (method r) eqn:Hm.
  { unfold admin_new_product. rewrite Hm. now apply step_none. }
  set (c := clock_reads w).
  set (tid := trace_id_of (now E c) (urandom16 E (random_reads w))).
  destruct (py_int (warranty_field (form r))) as [e|warranty] eqn:Hw.
  { destruct (admin_new_product_rejected E r w Hm) as (e' & w' & -> & Hdb & _).
    - intros ? ? ? Heq. rewrite Hw in Heq. discriminate.
    - now apply step_none. }
  destruct (insert_product (new_product (form r) tid warranty)
              (utcnow E (S c)) (utcnow E (S (S c))) (db w)) as [e|[row db1]] eqn:Hi.
  { destruct (admin_new_product_rejected E r w Hm) as (e' & w' & -> & Hdb & _).
    - intros ? ? ? Heq Hi'. rewrite Hw in Heq. injection Heq as <-.
      fold c tid in Hi'. rewrite Hi in Hi'. discriminate.
    - now apply step_none. }
  destruct (commit_ok E (commits w)) eqn:Hc.
  2:{ destruct (admin_new_product_rejected E r w Hm) as (e' & w' & -> & Hdb & _).
      - intros; exact Hc.
      - now apply step_none. }
  destruct (admin_new_product_persisted E r w warranty row db1 Hm Hw Hi Hc)
    as (res & w' & -> & _ & _ & Hdb).
  cbn [snd]. apply (step_insert E w _ r warranty row db1 Hm Hw Hi Hc).
  destruct Hdb as [-> | (u & ->)]; [now left | right].
  exists u. fold tid. rewrite (update_new_row _ _ _ _ _ _ _ u Hi).
  apply insert_product_inv in Hi as (-> & _). reflexivity.
Qed.

Lemma dispatch_db_step c w : db_step E w (db (snd (dispatch E c w))).
Proof.
  destruct c as [|r|r tid]; cbn [dispatch]; rewrite snd_serve.
  - now apply step_none.
  - apply admin_new_product_db_step.
  - destruct (find_by_trace_id (db w) tid) as [p|] eqn:F.
    + rewrite (LookupFacts.trace_page_hit E r tid w p F).
      destruct (commit_ok E (commits w)) eqn:Hc; cbn [snd db].
      * now apply (step_scan E w _ r tid p).
      * now apply step_none.
    + rewrite (LookupFacts.trace_page_miss E r tid w F). now apply step_none.
Qed.
End Effect.
End KeyFacts.

(** ** What every reachable store satisfies *)

Module ConsistencyFacts.
Import StoreFacts IngestFacts FlowFacts HistoryFacts KeyFacts.

Lemma new_row_consistent form tid warranty n c u row :
  row = ProductTrace.flushed (new_product form tid warranty) n c u ->
  form_get form "product_name" <> None ->
  int64 warranty = true ->
  row_consistent row.
Proof.
  intros -> Hn Hw. repeat split.
  - exact Hn.
  - exists warranty. split; [reflexivity | exact Hw].
  - left. reflexivity.
Qed.

Lemma with_qr_image_path_consistent row u :
  row_consistent row ->
  row_consistent
    (ProductTrace.with_qr_image_path row (qr_file_path (ProductTrace.trace_id row)) u).
Proof.
  intros (Hn & Hw & _). repeat split; [exact Hn | exact Hw | right; reflexivity].
Qed.

Lemma store_consistent_append_row d row :
  store_consistent d ->
  ProductTrace.id row = Some (next_id (map ProductTrace.id (products d))) ->
  find_by_trace_id d (ProductTrace.trace_id row) = None ->
  row_consistent row ->
  store_consistent (mkDb (products d ++ [row]) (scan_logs d)).
Proof.
  intros (Hids & Hlids & Hnd & Hrows & Hlogs) Hid Hfresh Hrow.
  unfold store_consistent. cbn [products scan_logs].
  split; [|split; [exact Hlids|split; [|split]]].
  - rewrite map_app, length_app. cbn [map List.length].
    rewrite Nat.add_1_r, keys_from_one_succ, Hid, Hids, next_id_keys.
    reflexivity.
  - rewrite map_app. cbn [map]. apply NoDup_app; [exact Hnd | |].
    + constructor; [intros [] | constructor].
    + intros t Hin [<- | []].
      apply in_map_iff in Hin as (q & Hq & Hin).
      rewrite find_by_trace_id_none in Hfresh. exact (Hfresh q Hin Hq).
  - intros p Hin. apply in_app_or in Hin as [Hin | [<- | []]]; auto.
  - intros l Hin. destruct (Hlogs l Hin) as (p & Hp & Ht).
    exists p. split; [apply in_or_app; now left | exact Ht].
Qed.

Lemma store_consistent_append_log d log u p :
  store_consistent d ->
  In p (products d) ->
  ProductTrace.trace_id p = ScanLog.trace_id log ->
  store_consistent (insert_scan_log log u d).
Proof.
  intros (Hids & Hlids & Hnd & Hrows & Hlogs) Hp Ht.
  unfold store_consistent, insert_scan_log. cbn [products scan_logs].
  split; [exact Hids|]. split; [|split; [exact Hnd|split; [exact Hrows|]]].
  - rewrite map_app, length_app. cbn [map List.length ScanLog.flushed ScanLog.id].
    rewrite Nat.add_1_r, keys_from_one_succ, Hlids, next_id_keys. reflexivity.
  - intros l Hin. apply in_app_or in Hin as [Hin | [<- | []]]; [auto|].
    exists p. split; [exact Hp | exact Ht].
Qed.

Lemma db_step_consistent E w d' :
  store_consistent (db w) -> db_step E w d' -> store_consistent d'.
Proof.
  intros Inv [-> | r tid p F _ -> | r warranty row db1 Hm Hw Hi _ Hd]; [exact Inv | |].
  - apply find_by_trace_id_some in F as (Hin & Ht).
    apply (store_consistent_append_log _ _ _ p); [exact Inv | exact Hin | exact Ht].
  - apply insert_product_inv in Hi as (Hrow & Hdb1 & Hfresh & Hname & Hfits).
    cbn [new_product ProductTrace.trace_id ProductTrace.product_name
         ProductTrace.warranty_months fits_column] in Hfresh, Hname, Hfits.
    assert (Hcons : row_consistent row)
      by (apply (new_row_consistent _ _ _ _ _ _ _ Hrow Hname Hfits)).
    assert (Hid : ProductTrace.id row
                  = Some (next_id (map ProductTrace.id (products (db w)))))
      by (rewrite Hrow; reflexivity).
    assert (Ht : ProductTrace.trace_id row
                 = trace_id_of (now E (clock_reads w)) (urandom16 E (random_reads w)))
      by (rewrite Hrow; reflexivity).
    destruct Hd as [-> | (u & ->)].
    + rewrite Hdb1. apply store_consistent_append_row; auto. now rewrite Ht.
    + apply store_consistent_append_row; auto.
      * cbn [ProductTrace.with_qr_image_path ProductTrace.trace_id]. now rewrite Ht.
      * now apply with_qr_image_path_consistent.
Qed.

Lemma reachable_store_consistent E w : reachable E w -> store_consistent (db w).
Proof.
  induction 1 as [|w c _ IH].
  - unfold store_consistent. cbn.
    split; [reflexivity|]. split; [reflexivity|]. split; [constructor|].
    split; intros ? [].
  - apply (db_step_consistent E w); [exact IH | apply dispatch_db_step].
Qed.

(** With one row per identifier, the query finds the row itself. *)
Lemma find_by_trace_id_unique d p :
  NoDup (map ProductTrace.trace_id (products d)) ->
  In p (products d) ->
  find_by_trace_id d (ProductTrace.trace_id p) = Some p.
Proof.
  unfold find_by_trace_id. induction (products d) as [|q l IH]; intros Hnd Hin.
  - destruct Hin.
  - cbn [map] in Hnd. inversion Hnd as [|? ? Hnot Hnd']; subst.
    cbn [find]. destruct Hin as [-> | Hin].
    + now rewrite String.eqb_refl.
    + destruct (String.eqb_spec (ProductTrace.trace_id q) (ProductTrace.trace_id p)) as [Heq|_].
      * exfalso. apply Hnot. rewrite Heq. now apply in_map.
      * now apply IH.
Qed.
End ConsistencyFacts.

Import KeyFacts ConsistencyFacts.

(** * Further properties of the store *)

Lemma trace_id_of_matches_pattern today random16 :
  valid_date today -> matches_pattern (trace_id_of today random16) = true.
Proof.
  intros Hv.
  destruct (trace_id_of_parts today random16 Hv) as (HP & HD & HR).
  destruct (strftime_Ymd_shape today Hv) as (LD & CD & _).
  destruct (random_chars_shape random16) as (LR & CR).
  unfold matches_pattern. rewrite HP, HD, HR, LD, LR, CD.
  rewrite (all_chars_impl _ _ _ upper_hex_is_upper_alnum CR). reflexivity.
Qed.

(** X1: whatever the request and whatever it answers, the rows and the
    scan logs that were in the database are still there, unchanged and in
    the same place; the request added at most one row or one scan log. *)
Theorem dispatch_append_only (E : env) (c : call) (w : world) :
  exists rows logs,
    products (db (snd (dispatch E c w))) = (products (db w) ++ rows)%list /\
    scan_logs (db (snd (dispatch E c w))) = (scan_logs (db w) ++ logs)%list /\
    List.length rows + List.length logs <= 1.
Proof.
  destruct (dispatch_db_step E c w)
    as [-> | r tid p _ _ -> | r warranty row db1 _ _ Hi _ Hd].
  - exists [], []. rewrite !app_nil_r. auto.
  - eexists [], [_]. cbn [insert_scan_log products scan_logs].
    rewrite app_nil_r. auto.
  - apply insert_product_inv in Hi as (_ & Hdb1 & _).
    destruct Hd as [-> | (u & ->)]; [rewrite Hdb1|];
      eexists [_], []; cbn [products scan_logs]; rewrite app_nil_r; auto.
Qed.

(** X2: after any history of requests the keys of both tables are 1, 2, 3,
    ... in insertion order. *)
Theorem reachable_keys_in_order (E : env) (w : world) :
  reachable E w ->
  map ProductTrace.id (products (db w))
  = keys_from_one (List.length (products (db w))) /\
  map ScanLog.id (scan_logs (db w))
  = keys_from_one (List.length (scan_logs (db w))).
Proof.
  intros H. destruct (reachable_store_consistent E w H) as (Hp & Hl & _).
  split; assumption.
Qed.

Lemma reachable_keys_in_order_witness :
  map ProductTrace.id (products (db (Sample.one_widget Sample.steady)))
  = keys_from_one (List.length (products (db (Sample.one_widget Sample.steady)))) /\
  map ScanLog.id (scan_logs (db (Sample.one_widget Sample.steady)))
  = keys_from_one (List.length (scan_logs (db (Sample.one_widget Sample.steady)))).
Proof.
  apply (reachable_keys_in_order Sample.steady).
  apply reachable_step, reachable_initial.
Defined.

(** X3: after any history of requests no two rows carry the same trace
    identifier, and the query by identifier finds each row itself. *)
Theorem reachable_trace_id_unique (E : env) (w : world) :
  reachable E w ->
  NoDup (map ProductTrace.trace_id (products (db w))) /\
  (forall p, In p (products (db w)) ->
             find_by_trace_id (db w) (ProductTrace.trace_id p) = Some p).
Proof.
  intros H. destruct (reachable_store_consistent E w H) as (_ & _ & Hnd & _).
  split; [exact Hnd|]. intros p Hin. now apply find_by_trace_id_unique.
Qed.

Lemma reachable_trace_id_unique_witness :
  NoDup (map ProductTrace.trace_id (products (db (Sample.one_widget Sample.steady)))) /\
  (forall p, In p (products (db (Sample.one_widget Sample.steady))) ->
             find_by_trace_id (db (Sample.one_widget Sample.steady))
               (ProductTrace.trace_id p) = Some p).
Proof.
  apply (reachable_trace_id_unique Sample.steady).
  apply reachable_step, reachable_initial.
Defined.

(** X4: after any history of requests every scan log carries the
    identifier of a row that is in the product table. *)
Theorem reachable_scan_logs_refer_to_rows (E : env) (w : world) (l : ScanLog.t) :
  reachable E w ->
  In l (scan_logs (db w)) ->
  exists p, find_by_trace_id (db w) (ScanLog.trace_id l) = Some p /\
            In p (products (db w)).
Proof.
  intros H Hin.
  destruct (reachable_store_consistent E w H) as (_ & _ & Hnd & _ & Hlogs).
  destruct (Hlogs l Hin) as (p & Hp & Ht).
  exists p. split; [|exact Hp]. rewrite <- Ht. now apply find_by_trace_id_unique.
Qed.

Lemma reachable_scan_logs_refer_to_rows_witness :
  exists p,
    find_by_trace_id
      (db (snd (dispatch Sample.steady (Sample.scan Sample.widget_id)
                  (Sample.one_widget Sample.steady))))
      (ScanLog.trace_id
         (Sample.last_scan_log
            (snd (dispatch Sample.steady (Sample.scan Sample.widget_id)
                    (Sample.one_widget Sample.steady)))))
    = Some p /\
    In p (products (db (snd (dispatch Sample.steady (Sample.scan Sample.widget_id)
                               (Sample.one_widget Sample.steady))))).
Proof.
  apply (reachable_scan_logs_refer_to_rows Sample.steady).
  - apply reachable_step, reachable_step, reachable_initial.
  - vm_compute. left. reflexivity.
Defined.

(** X5: after any history of requests the image path of a row is either
    empty or static/qrcodes/<the row's own identifier>.png, and its
    product name and its warranty are set. *)
Theorem reachable_rows_well_formed (E : env) (w : world) (p : ProductTrace.t) :
  reachable E w ->
  In p (products (db w)) ->
  (ProductTrace.qr_image_path p = None \/
   ProductTrace.qr_image_path p
   = Some ("static/qrcodes/" ++ ProductTrace.trace_id p ++ ".png")) /\
  ProductTrace.product_name p <> None /\
  (exists z, ProductTrace.warranty_months p = Some z /\ int64 z = true).
Proof.
  intros H Hin.
  destruct (reachable_store_consistent E w H) as (_ & _ & _ & Hrows & _).
  destruct (Hrows p Hin) as (Hn & Hw & Hq).
  rewrite (reachable_qr_file_path E w p H Hin) in Hq. auto.
Qed.

Lemma reachable_rows_well_formed_witness :
  (ProductTrace.qr_image_path (Sample.first_row (Sample.one_widget Sample.steady)) = None \/
   ProductTrace.qr_image_path (Sample.first_row (Sample.one_widget Sample.steady))
   = Some ("static/qrcodes/"
           ++ ProductTrace.trace_id (Sample.first_row (Sample.one_widget Sample.steady))
           ++ ".png")) /\
  ProductTrace.product_name (Sample.first_row (Sample.one_widget Sample.steady)) <> None /\
  (exists z,
      ProductTrace.warranty_months (Sample.first_row (Sample.one_widget Sample.steady))
      = Some z /\ int64 z = true).
Proof.
  apply (reachable_rows_well_formed Sample.steady (Sample.one_widget Sample.steady)).
  - apply reachable_step, reachable_initial.
  - vm_compute. left. reflexivity.
Defined.

(** X6: when every date the clock returns has a four-digit year, every
    identifier in the store after any history of requests has the shape
    P, eight digits, six uppercase alphanumerics. *)
Theorem reachable_identifiers_match_pattern (E : env) (w : world) (p : ProductTrace.t) :
  (forall i, valid_date (now E i)) ->
  reachable E w ->
  In p (products (db w)) ->
  matches_pattern (ProductTrace.trace_id p) = true.
Proof.
  intros Hv H Hin.
  destruct (reachable_rows_submitted E w H p Hin) as (i & j & _ & _ & -> & _).
  apply trace_id_of_matches_pattern, Hv.
Qed.

Lemma reachable_identifiers_match_pattern_witness :
  matches_pattern
    (ProductTrace.trace_id (Sample.first_row (Sample.one_widget Sample.steady))) = true.
Proof.
  apply (reachable_identifiers_match_pattern Sample.steady
           (Sample.one_widget Sample.steady)).
  - intros i. vm_compute. repeat split; discriminate.
  - apply reachable_step, reachable_initial.
  - vm_compute. left. reflexivity.
Defined.

(** * The listing *)

Module ListingFacts.

Lemma insert_by_id_desc_permutation p l :
  Permutation (insert_by_id_desc p l) (p :: l).
Proof.
  induction l as [|q l IH]; cbn [insert_by_id_desc]; [reflexivity|].
  destruct (ProductTrace.id p), (ProductTrace.id q); try reflexivity.
  destruct (_ <=? _)%Z; [reflexivity|].
  rewrite IH. apply perm_swap.
Qed.

Lemma order_by_id_desc_permutation l : Permutation (order_by_id_desc l) l.
Proof.
  unfold order_by_id_desc. induction l as [|p l IH]; cbn [fold_right]; [reflexivity|].
  rewrite insert_by_id_desc_permutation. now constructor.
Qed.

Lemma insert_by_id_desc_smallest p i l :
  ProductTrace.id p = Some i ->
  (forall q, In q l -> exists j, ProductTrace.id q = Some j /\ (i < j)%Z) ->
  insert_by_id_desc p l = (l ++ [p])%list.
Proof.
  intros Hp. induction l as [|q l IH]; intros H; [reflexivity|].
  cbn [insert_by_id_desc app]. rewrite Hp.
  destruct (H q (or_introl eq_refl)) as (j & -> & Hij).
  destruct (Z.leb_spec j i); [lia|].
  rewrite IH; [reflexivity|]. intros q' Hq'. apply H. now right.
Qed.

Lemma order_by_id_desc_ascending l : forall a,
  map ProductTrace.id l
  = map (fun k => Some (Z.of_nat k)) (seq a (List.length l)) ->
  order_by_id_desc l = rev l.
Proof.
  induction l as [|p l IH]; intros a H; [reflexivity|].
  cbn [List.length seq map] in H. injection H as Hp Hl.
  unfold order_by_id_desc in *. cbn [fold_right rev].
  rewrite (IH (S a) Hl).
  apply (insert_by_id_desc_smallest p (Z.of_nat a)); [exact Hp|].
  intros q Hq. apply in_rev in Hq.
  apply (in_map ProductTrace.id) in Hq. rewrite Hl in Hq.
  apply in_map_iff in Hq as (k & Hk & Hin). apply in_seq in Hin.
  exists (Z.of_nat k). split; [now symmetry | lia].
Qed.

End ListingFacts.

(** X7: the listing answers 200 with every row of the product table
    exactly once and changes nothing; after any history of requests the
    rows come newest first, the reverse of the order of insertion. *)
Theorem admin_products_lists_every_row (E : env) (w : world) :
  exists listing,
    dispatch E AdminProducts w = (Status200 "admin_list.html" listing, w) /\
    Permutation listing (products (db w)) /\
    (reachable E w -> listing = rev (products (db w))).
Proof.
  exists (order_by_id_desc (products (db w))).
  split; [reflexivity|]. split.
  - apply ListingFacts.order_by_id_desc_permutation.
  - intros H. destruct (reachable_store_consistent E w H) as (Hids & _).
    now apply (ListingFacts.order_by_id_desc_ascending _ 1).
Qed.

(** * The submission, end to end *)

Module SubmissionFacts.

Lemma warranty_field_error form e :
  py_int (warranty_field form) = inl e -> e = ValueError.
Proof.
  unfold warranty_field, py_or, pyval_of, truthy.
  destruct (form_get form "warranty_months") as [s|]; [|discriminate].
  destruct (s =? EmptyString); cbn [negb py_int]; [discriminate|].
  destruct (int_of_str s); [discriminate|]. now intros [= <-].
Qed.

Lemma find_in_prefix d rows logs tid p :
  find_by_trace_id d tid = Some p ->
  find_by_trace_id (mkDb (products d ++ rows) logs) tid = Some p.
Proof.
  unfold find_by_trace_id. cbn [products].
  induction (products d) as [|q l IH]; cbn [find app]; [discriminate|].
  destruct (_ =? _); auto.
Qed.

Section Cases.
Variable E : env.

(** The POST branch as a decision list: which step stops it, with what
    exception, and what the world is then. *)
Lemma admin_new_product_cases r w :
  method r = POST ->
  let c := clock_reads w in
  let tid := trace_id_of (now E c) (urandom16 E (random_reads w)) in
  (exists e w',
      admin_new_product E r w = (inl e, w') /\ submission_error e = true /\
      db w' = db w /\ files w' = files w /\ c <= clock_reads w') \/
  (exists warranty row db1 e w',
      py_int (warranty_field (form r)) = inr warranty /\
      insert_product (new_product (form r) tid warranty)
        (utcnow E (S c)) (utcnow E (S (S c))) (db w) = inr (row, db1) /\
      admin_new_product E r w = (inl e, w') /\ submission_error e = true /\
      db w' = db1 /\ S (S (S c)) <= clock_reads w') \/
  (exists warranty row db1 w',
      py_int (warranty_field (form r)) = inr warranty /\
      insert_product (new_product (form r) tid warranty)
        (utcnow E (S c)) (utcnow E (S (S c))) (db w) = inr (row, db1) /\
      admin_new_product E r w = (inr (Redirect "/admin/products"), w') /\
      db w' = update_qr_image_path (ProductTrace.id row) (qr_file_path tid)
                (utcnow E (S (S (S c)))) db1 /\
      files w' = (qr_file_path tid, base_url ++ tid)
                   :: filter (fun f => negb (fst f =? qr_file_path tid)) (files w) /\
      commits w' = S (S (commits w)) /\
      clock_reads w' = S (S (S (S c)))).
Proof.
  intros Hm c tid.
  rewrite (admin_new_product_post E r w Hm). cbv zeta. fold c tid.
  destruct (py_int (warranty_field (form r))) as [e|warranty] eqn:Hw.
  { left. apply warranty_field_error in Hw as ->.
    do 2 eexists. split; [reflexivity|]. repeat split. cbn [clock_reads]. lia. }
  rewrite add_commit_product_spec.
  cbn [db files clock_reads random_reads commits disk_ops]. cbv zeta.
  destruct (insert_product (new_product (form r) tid warranty)
              (utcnow E (S c)) (utcnow E (S (S c))) (db w))
    as [e|[row db1]] eqn:Hi.
  { left. do 2 eexists. split; [reflexivity|].
    split; [|split; [reflexivity|split; [reflexivity|cbn [clock_reads]; lia]]].
    unfold insert_product in Hi.
    destruct (negb _); [now injection Hi as <-|].
    destruct (ProductTrace.product_name _); [|now injection Hi as <-].
    destruct (find_by_trace_id _ _); [now injection Hi as <- | discriminate]. }
  destruct (commit_ok E (commits w)).
  2:{ left. do 2 eexists. split; [reflexivity|]. repeat split.
      cbn [clock_reads]. lia. }
  rewrite generate_qr_spec.
  cbn [db files clock_reads random_reads commits disk_ops]. cbv zeta.
  destruct (disk_ok E (disk_ops w)).
  2:{ right; left. exists warranty, row, db1. do 2 eexists.
      repeat (split; [first [reflexivity | eassumption]|]);
      first [reflexivity | cbn [clock_reads]; lia]. }
  destruct (qr_encodable E _).
  2:{ right; left. exists warranty, row, db1. do 2 eexists.
      repeat (split; [first [reflexivity | eassumption]|]);
      first [reflexivity | cbn [clock_reads]; lia]. }
  destruct (disk_ok E (S (disk_ops w))).
  2:{ right; left. exists warranty, row, db1. do 2 eexists.
      repeat (split; [first [reflexivity | eassumption]|]);
      first [reflexivity | cbn [clock_reads]; lia]. }
  rewrite set_qr_image_path_commit_spec.
  cbn [db files clock_reads random_reads commits disk_ops].
  destruct (commit_ok E (S (commits w))).
  - right; right. exists warranty, row, db1. eexists.
    repeat (split; [first [reflexivity | eassumption]|]);
      first [reflexivity | cbn [clock_reads]; lia].
  - right; left. exists warranty, row, db1. do 2 eexists.
    repeat (split; [first [reflexivity | eassumption]|]);
      first [reflexivity | cbn [clock_reads]; lia].
Qed.

Lemma serve_error h w e w' :
  h w = (inl e, w') -> submission_error e = true ->
  serve h w = (Status500 e, w').
Proof. intros H He. unfold serve. rewrite H. now destruct e. Qed.
End Cases.
End SubmissionFacts.

Import SubmissionFacts.

(** X8: a submission ends either in the redirect to the listing or in a
    500 whose exception is ValueError, OverflowError, IntegrityError,
    OperationalError or OSError; it never answers 404, and [int] on line
    123 never raises TypeError. *)
Theorem admin_new_product_outcomes (E : env) (r : request) (w : world) :
  method r = POST ->
  fst (dispatch E (AdminNewProduct r) w) = Status302 "/admin/products" \/
  exists e, fst (dispatch E (AdminNewProduct r) w) = Status500 e /\
            submission_error e = true.
Proof.
  intros Hm. cbn [dispatch].
  destruct (admin_new_product_cases E r w Hm)
    as [(e & w' & Hrun & He & _)
       |[(warranty & row & db1 & e & w' & _ & _ & Hrun & He & _)
        |(warranty & row & db1 & w' & _ & _ & Hrun & _)]].
  - right. exists e. now rewrite (serve_error _ _ _ _ Hrun He).
  - right. exists e. now rewrite (serve_error _ _ _ _ Hrun He).
  - left. unfold serve. now rewrite Hrun.
Qed.

Lemma admin_new_product_outcomes_witness :
  fst (dispatch Sample.disk_full (AdminNewProduct Sample.widget_request) initial_world)
  = Status302 "/admin/products" \/
  exists e,
    fst (dispatch Sample.disk_full (AdminNewProduct Sample.widget_request) initial_world)
    = Status500 e /\ submission_error e = true.
Proof.
  apply (admin_new_product_outcomes Sample.disk_full Sample.widget_request initial_world).
  reflexivity.
Defined.



(** X10: a submission without a product_name field persists nothing: it
    ends in a 500, with the database and the image files as they were; the
    exception is the constraint violation whenever the warranty field is
    one the column accepts. *)
Theorem admin_new_product_requires_name (E : env) (r : request) (w : world) :
  method r = POST ->
  form_get (form r) "product_name" = None ->
  exists e w',
    dispatch E (AdminNewProduct r) w = (Status500 e, w') /\
    db w' = db w /\ files w' = files w /\
    (forall z, py_int (warranty_field (form r)) = inr z -> int64 z = true ->
               e = IntegrityError).
Proof.
  intros Hm Hn. cbn [dispatch]. unfold serve.
  rewrite (admin_new_product_post E r w Hm). cbv zeta.
  destruct (py_int (warranty_field (form r))) as [e|warranty] eqn:Hw.
  { apply warranty_field_error in Hw as ->. do 2 eexists.
    split; [reflexivity|]. cbn. repeat split. discriminate. }
  rewrite add_commit_product_spec. cbv zeta.
  cbn [db files clock_reads random_reads commits disk_ops].
  unfold insert_product.
  cbn [new_product ProductTrace.product_name ProductTrace.warranty_months fits_column].
  rewrite Hn. destruct (int64 warranty) eqn:Hfit; cbn [negb].
  - do 2 eexists. split; [reflexivity|]. cbn. repeat split.
  - do 2 eexists. split; [reflexivity|]. cbn. repeat split.
    intros z [= <-] Hz. congruence.
Qed.

Lemma admin_new_product_requires_name_witness :
  exists e w',
    dispatch Sample.steady
      (AdminNewProduct (mkRequest POST [("model", "M-1")] None None)) initial_world
    = (Status500 e, w') /\
    db w' = db initial_world /\ files w' = files initial_world /\
    (forall z,
        py_int (warranty_field (form (mkRequest POST [("model", "M-1")] None None)))
        = inr z -> int64 z = true -> e = IntegrityError).
Proof.
  apply (admin_new_product_requires_name Sample.steady
           (mkRequest POST [("model", "M-1")] None None) initial_world).
  - reflexivity.
  - vm_compute. reflexivity.
Defined.

(** * Permanence *)

Lemma dispatch_keeps_found E c w tid p :
  find_by_trace_id (db w) tid = Some p ->
  find_by_trace_id (db (snd (dispatch E c w))) tid = Some p.
Proof.
  intros F.
  destruct (dispatch_db_step E c w)
    as [-> | r tid' p' _ _ -> | r warranty row db1 _ _ Hi _ Hd].
  - exact F.
  - exact F.
  - apply insert_product_inv in Hi as (_ & Hdb1 & _).
    destruct Hd as [-> | (u & ->)]; [rewrite Hdb1|]; now apply find_in_prefix.
Qed.

(** X11: a record that the lookup by identifier finds is found, unchanged,
    after any further list of requests: nothing the application serves
    alters, hides or removes a persisted record. *)
Theorem run_keeps_records (E : env) (cs : list call) (w : world)
        (tid : string) (p : ProductTrace.t) :
  find_by_trace_id (db w) tid = Some p ->
  find_by_trace_id (db (run E cs w)) tid = Some p.
Proof.
  unfold run. revert w. induction cs as [|c cs IH]; intros w F; [exact F|].
  cbn [fold_left]. apply IH. now apply dispatch_keeps_found.
Qed.

Lemma run_keeps_records_witness :
  find_by_trace_id
    (db (run Sample.colliding
           [Sample.widget; Sample.scan Sample.widget_id; Sample.widget_bad_warranty;
            Sample.widget; AdminProducts]
           (Sample.one_widget Sample.colliding)))
    Sample.widget_id
  = Some (Sample.first_row (Sample.one_widget Sample.colliding)).
Proof.
  apply (run_keeps_records Sample.colliding).
  vm_compute. reflexivity.
Defined.

(** * The integer conversion *)

Module IntFacts.
Import Py.

Lemma chars_of_digits ds :
  list_ascii_of_string (string_of_digits ds) = map digit_char ds.
Proof. induction ds as [|d ds IH]; cbn; [reflexivity | now rewrite IH]. Qed.












End IntFacts.



(** * The image file *)



(** * Which draws give the same identifier *)

Module CollisionFacts.
Import Py.

Lemma append_cancel_l (s a b : string) : s ++ a = s ++ b -> a = b.
Proof. induction s as [|c s IH]; cbn; [auto | intros [= H]; auto]. Qed.

Lemma string_of_digits_app l1 l2 :
  string_of_digits (l1 ++ l2) = string_of_digits l1 ++ string_of_digits l2.
Proof. induction l1 as [|d l1 IH]; cbn; [reflexivity | now rewrite IH]. Qed.

Lemma zeros_repeat k : zeros k = string_of_digits (repeat 0%N k).
Proof. induction k as [|k IH]; cbn; [reflexivity | now rewrite <- IH]. Qed.

Lemma take_string_of_digits k l :
  take k (string_of_digits l) = string_of_digits (firstn k l).
Proof.
  revert l. induction k as [|k IH]; intros [|d l]; cbn; try reflexivity.
  now rewrite IH.
Qed.

(** The digits of [n], with zeros in front up to [width]. *)
Lemma zfill_digits width base n :
  zfill width (string_of_digits (digits base n))
  = string_of_digits
      (repeat 0%N (width - List.length (digits base n)) ++ digits base n).
Proof.
  unfold zfill. now rewrite string_of_digits_app, zeros_repeat, length_string_of_digits.
Qed.

Section Base.
Variable base : N.
Hypothesis base_big : (1 < base)%N.

Lemma value_app l1 l2 s :
  value base (l1 ++ l2) s = value base l2 (value base l1 s).
Proof. unfold value. apply fold_left_app. Qed.

Lemma value_shift l : forall s,
  value base l s = (s * base ^ N.of_nat (List.length l) + value base l 0)%N.
Proof.
  induction l as [|d l IH]; intros s.
  - unfold value. cbn [fold_left List.length].
    change (N.of_nat 0) with 0%N. rewrite N.pow_0_r. lia.
  - change (value base (d :: l) s) with (value base l (s * base + d)).
    change (value base (d :: l) 0) with (value base l (0 * base + d)).
    rewrite IH, (IH (0 * base + d)%N).
    cbn [List.length].
    replace (N.of_nat (S (List.length l))) with (N.succ (N.of_nat (List.length l))) by lia.
    rewrite N.pow_succ_r'. lia.
Qed.

Lemma value_below l :
  Forall (fun d => d < base)%N l ->
  (value base l 0 < base ^ N.of_nat (List.length l))%N.
Proof.
  induction 1 as [|d l Hd _ IH].
  - unfold value. cbn [fold_left List.length].
    change (N.of_nat 0) with 0%N. rewrite N.pow_0_r. lia.
  - change (value base (d :: l) 0) with (value base l (0 * base + d)).
    rewrite value_shift. cbn [List.length].
    replace (N.of_nat (S (List.length l))) with (N.succ (N.of_nat (List.length l))) by lia.
    rewrite N.pow_succ_r'. nia.
Qed.

Lemma value_zeros k l : value base (repeat 0%N k ++ l) 0 = value base l 0.
Proof.
  induction k as [|k IH]; [reflexivity|].
  cbn [repeat app]. change (value base (0%N :: ?m) 0) with (value base m (0 * base + 0)).
  exact IH.
Qed.

(** Two numerals of the same length that denote the same number are
    the same numeral. *)
Lemma value_unique l1 : forall l2,
  List.length l1 = List.length l2 ->
  Forall (fun d => d < base)%N l1 ->
  Forall (fun d => d < base)%N l2 ->
  value base l1 0 = value base l2 0 ->
  l1 = l2.
Proof.
  induction l1 as [|d1 l1 IH]; intros [|d2 l2] Hlen H1 H2 Hv;
    try discriminate; [reflexivity|].
  injection Hlen as Hlen.
  inversion H1 as [|? ? Hd1 Hl1]; inversion H2 as [|? ? Hd2 Hl2]; subst.
  change (value base (d1 :: l1) 0) with (value base l1 (0 * base + d1)) in Hv.
  change (value base (d2 :: l2) 0) with (value base l2 (0 * base + d2)) in Hv.
  rewrite value_shift, (value_shift l2) in Hv. rewrite <- Hlen in Hv.
  pose proof (value_below l1 Hl1) as B1.
  pose proof (value_below l2 Hl2) as B2. rewrite <- Hlen in B2.
  set (B := (base ^ N.of_nat (List.length l1))%N) in *.
  assert (d1 = d2) by nia. subst d2.
  f_equal. apply IH; auto. lia.
Qed.

Lemma padded_digits width n :
  1 <= width -> (n < base ^ N.of_nat width)%N ->
  let l := (repeat 0%N (width - List.length (digits base n)) ++ digits base n)%list in
  List.length l = width /\
  Forall (fun d => d < base)%N l /\
  value base l 0 = n.
Proof.
  intros Hw Hn l. subst l.
  pose proof (digits_length base ltac:(lia) width n Hw Hn) as Hlen.
  repeat split.
  - rewrite length_app, repeat_length. lia.
  - apply Forall_app. split.
    + apply Forall_forall. intros d Hd. apply repeat_spec in Hd. subst d. lia.
    + apply digits_below. lia.
  - rewrite value_zeros. apply digits_value; lia.
Qed.

(** The first [k] digits of a numeral of [k + m] digits are the
    numeral, on [k] digits, of the quotient by [base ^ m]. *)
Lemma firstn_padded_digits k m n :
  1 <= k -> (n < base ^ N.of_nat (k + m))%N ->
  firstn k (repeat 0%N (k + m - List.length (digits base n)) ++ digits base n)
  = (repeat 0%N (k - List.length (digits base (n / base ^ N.of_nat m)))
     ++ digits base (n / base ^ N.of_nat m))%list.
Proof.
  intros Hk Hn.
  destruct (padded_digits (k + m) n ltac:(lia) Hn) as (Llen & Lbelow & Lval).
  set (l := (repeat 0%N _ ++ digits base n)%list) in *.
  assert (Hq : (n / base ^ N.of_nat m < base ^ N.of_nat k)%N).
  { apply N.Div0.div_lt_upper_bound.
    rewrite <- N.pow_add_r. now replace (N.of_nat m + N.of_nat k)%N
      with (N.of_nat (k + m)) by lia. }
  destruct (padded_digits k (n / base ^ N.of_nat m) Hk Hq) as (Rlen & Rbelow & Rval).
  pose proof Lbelow as Lparts.
  rewrite <- (firstn_skipn k l) in Lparts.
  apply Forall_app in Lparts as (Lfirst & Lrest).
  apply value_unique.
  - rewrite length_firstn, Rlen. lia.
  - exact Lfirst.
  - exact Rbelow.
  - rewrite Rval.
    rewrite <- (firstn_skipn k l) in Lval.
    rewrite value_app, value_shift in Lval.
    assert (Hs : List.length (skipn k l) = m) by (rewrite length_skipn; lia).
    rewrite Hs in Lval.
    pose proof (value_below (skipn k l) Lrest) as Hb.
    rewrite Hs in Hb.
    apply (N.div_unique n _ _ (value base (skipn k l) 0)); [exact Hb|].
    lia.
Qed.
End Base.

Lemma take_format_x k m n :
  1 <= k -> (n < 16 ^ N.of_nat (k + m))%N ->
  take k (format_x (k + m) n) = format_x k (n / 16 ^ N.of_nat m).
Proof.
  intros Hk Hn. unfold format_x.
  rewrite !zfill_digits, take_string_of_digits.
  now rewrite (firstn_padded_digits 16 eq_refl k m n Hk Hn).
Qed.

Lemma uuid4_int_leading_bytes r :
  (uuid4_int r / 2 ^ 104 = leading_bytes r)%N.
Proof.
  unfold uuid4_int, leading_bytes. cbv zeta.
  rewrite <- !N.shiftr_div_pow2.
  rewrite N.shiftr_lor, N.shiftr_ldiff, N.shiftr_lor, N.shiftr_ldiff.
  change (N.shiftr (N.shiftl 49152 48) 104) with 0%N.
  change (N.shiftr (N.shiftl 32768 48) 104) with 0%N.
  change (N.shiftr (N.shiftl 61440 64) 104) with 0%N.
  change (N.shiftr (N.shiftl 4 76) 104) with 0%N.
  now rewrite !N.ldiff_0_r, !N.lor_0_r.
Qed.

Lemma leading_bytes_below r : (leading_bytes r < 16 ^ 6)%N.
Proof.
  unfold leading_bytes. apply N.Div0.div_lt_upper_bound.
  change (2 ^ 104 * 16 ^ 6)%N with (2 ^ 128)%N. apply N.mod_lt. discriminate.
Qed.

Lemma random_chars_leading_bytes r :
  upper (take 6 (uuid_hex (uuid4_int r))) = upper (format_x 6 (leading_bytes r)).
Proof.
  unfold uuid_hex.
  change (format_x 32 (uuid4_int r)) with (format_x (6 + 26) (uuid4_int r)).
  rewrite (take_format_x 6 26 (uuid4_int r)); [|lia|apply uuid4_int_below].
  change (16 ^ N.of_nat 26)%N with (2 ^ 104)%N.
  now rewrite uuid4_int_leading_bytes.
Qed.

Lemma hex_value_upper_digit d :
  (d < 16)%N -> hex_value (upper_char (digit_char d)) = d.
Proof. intros H. by_cases_below d. Qed.

Lemma upper_digits_injective l1 : forall l2,
  Forall (fun d => d < 16)%N l1 -> Forall (fun d => d < 16)%N l2 ->
  upper (string_of_digits l1) = upper (string_of_digits l2) -> l1 = l2.
Proof.
  induction l1 as [|d1 l1 IH]; intros [|d2 l2] H1 H2 H; cbn in H;
    try discriminate; [reflexivity|].
  injection H as Hc Hr.
  inversion H1; inversion H2; subst.
  apply (f_equal hex_value) in Hc. rewrite !hex_value_upper_digit in Hc by assumption.
  f_equal; [exact Hc | now apply IH].
Qed.

Lemma upper_format_x_injective a b :
  (a < 16 ^ 6)%N -> (b < 16 ^ 6)%N ->
  upper (format_x 6 a) = upper (format_x 6 b) -> a = b.
Proof.
  intros Ha Hb H. unfold format_x in H. rewrite !zfill_digits in H.
  destruct (padded_digits 16 eq_refl 6 a ltac:(lia) Ha) as (_ & Ba & Va).
  destruct (padded_digits 16 eq_refl 6 b ltac:(lia) Hb) as (_ & Bb & Vb).
  apply upper_digits_injective in H; [|exact Ba|exact Bb].
  rewrite <- Va, <- Vb. now rewrite H.
Qed.
End CollisionFacts.

(** X14: the six random characters of an identifier are the first three
    random bytes in uppercase hexadecimal: the version and variant bits
    that uuid4 forces never reach them.  So on one date two draws give the
    same identifier exactly when their first three bytes agree. *)
Theorem trace_id_collision (today : date) (r1 r2 : N) :
  trace_id_of today r1
  = "P" ++ strftime_Ymd today ++ Py.upper (Py.format_x 6 (leading_bytes r1)) /\
  (trace_id_of today r1 = trace_id_of today r2 <-> leading_bytes r1 = leading_bytes r2).
Proof.
  assert (H : forall r, trace_id_of today r
              = "P" ++ strftime_Ymd today ++ Py.upper (Py.format_x 6 (leading_bytes r))).
  { intros r. unfold trace_id_of. cbv zeta.
    now rewrite CollisionFacts.random_chars_leading_bytes. }
  split; [apply H|]. rewrite !H. split.
  - intros Heq. apply CollisionFacts.append_cancel_l in Heq.
    apply CollisionFacts.append_cancel_l in Heq.
    apply CollisionFacts.upper_format_x_injective in Heq;
      auto using CollisionFacts.leading_bytes_below.
  - now intros ->.
Qed.

(** * Time stamps *)

Module StampFacts.
Section Stamps.
Variable E : env.

Lemma stamps_ordered_later w w' :
  stamps_ordered E w ->
  db w' = db w ->
  clock_reads w <= clock_reads w' ->
  stamps_ordered E w'.
Proof.
  intros (Hp & Hl) Hdb Hc. unfold stamps_ordered. rewrite Hdb. split.
  - intros p Hin. destruct (Hp p Hin) as (i & k & ? & ? & ? & ?).
    exists i, k. repeat split; auto; lia.
  - intros l Hin. destruct (Hl l Hin) as (p & i & k & ? & ? & ? & ? & ? & ?).
    exists p, i, k. repeat split; auto; lia.
Qed.

Lemma stamps_ordered_new_row w w' row i k :
  stamps_ordered E w ->
  db w' = mkDb (products (db w) ++ [row]) (scan_logs (db w)) ->
  clock_reads w <= clock_reads w' ->
  i < k -> k < clock_reads w' ->
  ProductTrace.created_at row = Some (utcnow E i) ->
  ProductTrace.updated_at row = Some (utcnow E k) ->
  stamps_ordered E w'.
Proof.
  intros (Hp & Hl) Hdb Hc Hik Hk Hcr Hup. unfold stamps_ordered. rewrite Hdb.
  cbn [products scan_logs]. split.
  - intros p Hin. apply in_app_or in Hin as [Hin | [<- | []]].
    + destruct (Hp p Hin) as (i' & k' & ? & ? & ? & ?).
      exists i', k'. repeat split; auto; lia.
    + exists i, k. auto.
  - intros l Hin. destruct (Hl l Hin) as (p & i' & k' & ? & ? & ? & ? & ? & ?).
    exists p, i', k'. repeat split; auto; [apply in_or_app; now left | lia].
Qed.

Lemma admin_new_product_keeps_stamps r w :
  stamps_ordered E w -> stamps_ordered E (snd (admin_new_product E r w)).
Proof.
  intros Inv. destruct (method r) eqn:Hm.
  { unfold admin_new_product. rewrite Hm. exact Inv. }
  destruct (admin_new_product_cases E r w Hm)
    as [(e & w' & -> & _ & Hdb & _ & Hc)
       |[(warranty & row & db1 & e & w' & _ & Hi & -> & _ & Hdb & Hc)
        |(warranty & row & db1 & w' & _ & Hi & -> & Hdb & _ & _ & Hc)]];
    cbn [snd].
  - now apply (stamps_ordered_later w).
  - apply insert_product_inv in Hi as (Hrow & Hdb1 & _).
    apply (stamps_ordered_new_row w w' row (S (clock_reads w)) (S (S (clock_reads w))));
      try lia; [exact Inv | now rewrite Hdb, Hdb1 | | ]; rewrite Hrow; reflexivity.
  - rewrite (update_new_row _ _ _ _ _ _ _ _ Hi) in Hdb.
    apply insert_product_inv in Hi as (Hrow & _).
    eapply (stamps_ordered_new_row w w' _ (S (clock_reads w)) (S (S (S (clock_reads w)))));
      [exact Inv | exact Hdb | lia | lia | lia | | ]; rewrite Hrow; reflexivity.
Qed.

Lemma trace_page_keeps_stamps r tid w :
  stamps_ordered E w -> stamps_ordered E (snd (trace_page E r tid w)).
Proof.
  intros Inv. destruct (find_by_trace_id (db w) tid) as [p|] eqn:F.
  2:{ now rewrite (trace_page_miss E r tid w F). }
  rewrite (trace_page_hit E r tid w p F).
  destruct (commit_ok E (commits w)); cbn [snd].
  2:{ apply (stamps_ordered_later w); cbn; auto. }
  destruct Inv as (Hp & Hl).
  apply find_by_trace_id_some in F as (Hin & Ht).
  unfold stamps_ordered. cbn [db clock_reads insert_scan_log products scan_logs]. split.
  - intros q Hq. destruct (Hp q Hq) as (i & k & ? & ? & ? & ?).
    exists i, k. repeat split; auto; lia.
  - intros l Hq. apply in_app_or in Hq as [Hq | [<- | []]].
    + destruct (Hl l Hq) as (q & i & k & ? & ? & ? & ? & ? & ?).
      exists q, i, k. repeat split; auto; lia.
    + destruct (Hp p Hin) as (i & k & ? & ? & Hcr & _).
      exists p, i, (clock_reads w). repeat split; auto; lia.
Qed.

Lemma reachable_stamps w : reachable E w -> stamps_ordered E w.
Proof.
  induction 1 as [|w c _ IH].
  - split; intros ? [].
  - destruct c as [|r|r tid]; cbn [dispatch]; rewrite snd_serve.
    + exact IH.
    + now apply admin_new_product_keeps_stamps.
    + now apply trace_page_keeps_stamps.
Qed.
End Stamps.
End StampFacts.

(** X15: under a strictly increasing clock, after any history of requests,
    every row was last written after it was created, and every scan log
    was written after the creation of the row its identifier finds. *)
Theorem reachable_stamps_ordered (E : env) (w : world) :
  clock_increasing E ->
  reachable E w ->
  (forall p, In p (products (db w)) ->
     exists c u, ProductTrace.created_at p = Some c /\
                 ProductTrace.updated_at p = Some u /\ (c < u)%Z) /\
  (forall l, In l (scan_logs (db w)) ->
     exists p c s, find_by_trace_id (db w) (ScanLog.trace_id l) = Some p /\
                   ProductTrace.created_at p = Some c /\
                   ScanLog.scanned_at l = Some s /\ (c < s)%Z).
Proof.
  intros Hclock Hreach.
  destruct (StampFacts.reachable_stamps E w Hreach) as (Hp & Hl).
  destruct (reachable_store_consistent E w Hreach) as (_ & _ & Hnd & _).
  split.
  - intros p Hin. destruct (Hp p Hin) as (i & k & Hik & _ & Hc & Hu).
    exists (utcnow E i), (utcnow E k). auto.
  - intros l Hin. destruct (Hl l Hin) as (p & i & k & Hpin & Ht & Hik & _ & Hc & Hs).
    exists p, (utcnow E i), (utcnow E k). rewrite <- Ht.
    split; [now apply find_by_trace_id_unique | auto].
Qed.

Lemma reachable_stamps_ordered_witness :
  (forall p,
      In p (products (db (run Sample.steady [Sample.widget; Sample.scan Sample.widget_id]
                            initial_world))) ->
      exists c u, ProductTrace.created_at p = Some c /\
                  ProductTrace.updated_at p = Some u /\ (c < u)%Z) /\
  (forall l,
      In l (scan_logs (db (run Sample.steady [Sample.widget; Sample.scan Sample.widget_id]
                             initial_world))) ->
      exists p c s,
        find_by_trace_id
          (db (run Sample.steady [Sample.widget; Sample.scan Sample.widget_id]
                 initial_world))
          (ScanLog.trace_id l) = Some p /\
        ProductTrace.created_at p = Some c /\
        ScanLog.scanned_at l = Some s /\ (c < s)%Z).
Proof.
  apply (reachable_stamps_ordered Sample.steady).
  - intros i j H. cbv beta iota delta [utcnow Sample.steady]. lia.
  - apply reachable_step, reachable_step, reachable_initial.
Defined.
